(** * Lead qualification bot: the question flow, the validators and the scorer

    A shallow embedding of [src/app.py]: the session state the script keeps
    between runs, [qualify_lead], [get_next_question], [validate_response]
    and the script body [main], together with the parts of the Python
    runtime they rest on: [str] as a sequence of code points, [int(str)],
    [float(str)] on binary64, mixed [int]/[float] arithmetic and comparison,
    and [re.match] for the four validation patterns. *)

From Stdlib Require Import ZArith NArith Lia List Bool Ascii String SpecFloat.
From stdpp Require Import base option gmap strings list.
From Equations.Prop Require Import Equations Logic.
Import ListNotations.

Local Open Scope Z_scope.

(** ** Python strings *)

(** A Python [str] is a sequence of Unicode code points. *)
Definition pystr : Type := list N.

(** The [str] written by an ASCII literal of the source. *)
Definition u (s : string) : pystr := map N_of_ascii (list_ascii_of_string s).

(** The code points the scanners name. *)
Module Chr.
Definition newline : N := 10.
Definition space : N := 32.
Definition plus : N := 43.
Definition minus : N := 45.
Definition dot : N := 46.
Definition zero : N := 48.
Definition question : N := 63.
Definition underscore : N := 95.
End Chr.

(** [Py_ISSPACE]: the C-locale white space of [pyctype.h]. *)
Definition Py_ISSPACE (c : N) : bool :=
  ((9 <=? c) && (c <=? 13) || (c =? 32))%N.

(** [Py_UNICODE_ISSPACE]: [_Py_ascii_whitespace] below 128 and
    [_PyUnicode_IsWhitespace] above. *)
Definition Py_UNICODE_ISSPACE (c : N) : bool :=
  ((9 <=? c) && (c <=? 13) || (28 <=? c) && (c <=? 32)
   || (c =? 133) || (c =? 160) || (c =? 5760)
   || (8192 <=? c) && (c <=? 8202)
   || (c =? 8232) || (c =? 8233) || (c =? 8239) || (c =? 8287)
   || (c =? 12288))%N.

Definition is_ascii_digit (c : N) : bool := ((48 <=? c) && (c <=? 57))%N.

(** Case-insensitive comparison of a code point with a lower-case ASCII
    letter, as [_Py_parse_inf_or_nan] does it. *)
Definition ci_eq (c lower : N) : bool := ((c =? lower) || (c + 32 =? lower))%N.

(** ** Exceptions *)

Inductive exn : Type := ValueError | TypeError | OverflowError | KeyError.

Inductive outcome (A : Type) : Type :=
| Return (a : A)
| Raise (e : exn).
Arguments Return {A} a.
Arguments Raise {A} e.

#[global] Instance outcome_ret : MRet outcome := fun A a => Return a.
#[global] Instance outcome_bind : MBind outcome := fun A B k m =>
  match m with
  | Return a => k a
  | Raise e => Raise e
  end.

#[global] Instance outcome_fmap : FMap outcome := fun A B f m =>
  match m with
  | Return a => Return (f a)
  | Raise e => Raise e
  end.

(** [try: body except: handler] with a bare [except]. *)
Definition try_except {A : Type} (body : outcome A) (handler : A) : A :=
  match body with
  | Return a => a
  | Raise _ => handler
  end.

(** ** Python numbers: [int] and binary64 [float] *)

Definition prec : Z := 53.
Definition emax : Z := 1024.

Inductive number : Type :=
| NInt (z : Z)
| NFloat (f : spec_float).

(** [PyLong_AsDouble]: nearest binary64, ties to even; an [int] beyond the
    finite range raises [OverflowError]. *)
Definition PyLong_AsDouble (z : Z) : outcome spec_float :=
  match binary_normalize prec emax z 0 false with
  | S754_infinity _ => Raise OverflowError
  | f => Return f
  end.

(** The exact order between a [float] and an [int], as [float_richcompare]
    decides it; [None] when the [float] is a NaN. *)
Definition float_compare_int (f : spec_float) (z : Z) : option comparison :=
  match f with
  | S754_nan => None
  | S754_infinity s => Some (if s then Lt else Gt)
  | S754_zero _ => Some (0 ?= z)
  | S754_finite s m e =>
      let v := if s then Z.neg m else Z.pos m in
      Some (if 0 <=? e then (v * 2 ^ e ?= z) else (v ?= z * 2 ^ (- e)))
  end.

Definition number_compare (a b : number) : option comparison :=
  match a, b with
  | NInt x, NInt y => Some (x ?= y)
  | NFloat f, NInt y => float_compare_int f y
  | NInt x, NFloat g => option_map CompOpp (float_compare_int g x)
  | NFloat f, NFloat g => SFcompare f g
  end.

(** [a >= b] and [a <= b]; every comparison with a NaN is false. *)
Definition py_ge (a b : number) : bool :=
  match number_compare a b with
  | Some (Gt | Eq) => true
  | _ => false
  end.

Definition py_le (a b : number) : bool :=
  match number_compare a b with
  | Some (Lt | Eq) => true
  | _ => false
  end.

Definition to_float (a : number) : outcome spec_float :=
  match a with
  | NInt z => PyLong_AsDouble z
  | NFloat f => Return f
  end.

(** [a + b] and [a * b]: exact on two [int]s, otherwise both operands are
    taken to [float]. *)
Definition py_add (a b : number) : outcome number :=
  match a, b with
  | NInt x, NInt y => Return (NInt (x + y))
  | _, _ => f ← to_float a; g ← to_float b; Return (NFloat (SFadd prec emax f g))
  end.

Definition py_mul (a b : number) : outcome number :=
  match a, b with
  | NInt x, NInt y => Return (NInt (x * y))
  | _, _ => f ← to_float a; g ← to_float b; Return (NFloat (SFmul prec emax f g))
  end.

(** ** Decimal text to binary64 *)

(** The binary64 nearest to [m * 10 ^ e] (ties to even) with sign [neg]:
    what [_Py_dg_strtod] returns for the digits [m] and the decimal
    exponent [e]. *)
Definition round_decimal (neg : bool) (m : positive) (e : Z) : spec_float :=
  if 0 <=? e then
    binary_normalize prec emax (if neg then Z.neg m * 10 ^ e else Z.pos m * 10 ^ e) 0 false
  else
    let '(q, e', l) := SFdiv_core_binary prec emax (Z.pos m) 0 (10 ^ (- e)) 0 in
    binary_round_aux prec emax neg q e' l.

Definition decimal_to_float (neg : bool) (m : Z) (e : Z) : spec_float :=
  match m with
  | Z.pos p => round_decimal neg p e
  | _ => S754_zero neg
  end.

(** The value of a list of decimal digits, most significant first. *)
Definition digits_value (ds : list Z) : Z :=
  fold_left (fun acc d => 10 * acc + d) ds 0.

(** ** Scanning ASCII text *)

Fixpoint lstrip (s : list N) : list N :=
  match s with
  | c :: s' => if Py_ISSPACE c then lstrip s' else s
  | [] => []
  end.

Fixpoint rstrip (s : list N) : list N :=
  match s with
  | [] => []
  | c :: s' =>
      match rstrip s' with
      | [] => if Py_ISSPACE c then [] else [c]
      | r => c :: r
      end
  end.

(** An optional ['+'] or ['-']; [true] for ['-']. *)
Definition parse_sign (s : list N) : bool * list N :=
  match s with
  | c :: s' =>
      if (c =? Chr.minus)%N then (true, s')
      else if (c =? Chr.plus)%N then (false, s')
      else (false, s)
  | [] => (false, [])
  end.

(** The value of an ASCII digit. *)
Definition ascii_value (c : N) : Z := Z.of_N (c - Chr.zero).

(** The longest run of ASCII digits at the head of [s], as digit values. *)
Fixpoint span_digits (s : list N) : list Z * list N :=
  match s with
  | c :: s' =>
      if is_ascii_digit c then
        let '(ds, r) := span_digits s' in (ascii_value c :: ds, r)
      else ([], s)
  | [] => ([], [])
  end.

(** The digits left after the leading zeros. *)
Fixpoint drop_zeros (ds : list Z) : list Z :=
  match ds with
  | d :: ds' => if d =? 0 then drop_zeros ds' else ds
  | [] => []
  end.

(** ** The interpreter's tables and settings *)

(** What the model takes from the interpreter that runs the script. *)
Class interpreter : Type := {
  (** The code points of the digit zero of every script in the interpreter's
      Unicode database (general category Nd, above ASCII); each is followed
      by the script's digits one to nine. *)
  unicode_decimal_zeros : list N;
  (** [sys.get_int_max_str_digits()]: 4300 unless configured; 0 turns the
      limit off, and an interpreter that predates the limit behaves as with
      0. *)
  int_max_str_digits : Z
}.

(** CPython 3.11 with its default settings (Unicode 14.0.0). *)
Definition cpython_3_11 : interpreter := {|
  unicode_decimal_zeros :=
    [1632; 1776; 1984; 2406; 2534; 2662; 2790; 2918; 3046; 3174; 3302; 3430;
     3558; 3664; 3792; 3872; 4160; 4240; 6112; 6160; 6470; 6608; 6784; 6800;
     6992; 7088; 7232; 7248; 42528; 43216; 43264; 43472; 43504; 43600; 44016;
     65296; 66720; 68912; 69734; 69872; 69942; 70096; 70384; 70736; 70864;
     71248; 71360; 71472; 71904; 72016; 72784; 73040; 73120; 92768; 92864;
     93008; 120782; 120792; 120802; 120812; 120822; 123200; 123632; 125264;
     130032]%N;
  int_max_str_digits := 4300
|}.

(** An interpreter with the limit on [int] conversion turned off. *)
Definition cpython_no_int_limit : interpreter :=
  {| unicode_decimal_zeros := unicode_decimal_zeros (interpreter := cpython_3_11);
     int_max_str_digits := 0 |}.

Section Conversions.

Context {py : interpreter}.

Definition Py_UNICODE_TODECIMAL (ch : N) : option N :=
  if (ch <? 128)%N then
    if is_ascii_digit ch then Some (ch - Chr.zero)%N else None
  else
    match find (fun z => (z <=? ch) && (ch <? z + 10))%N unicode_decimal_zeros with
    | Some z => Some (ch - z)%N
    | None => None
    end.

(** [Py_UNICODE_ISDECIMAL], which is also the class [\d] of [re] on a
    [str] pattern. *)
Definition Py_UNICODE_ISDECIMAL (ch : N) : bool :=
  match Py_UNICODE_TODECIMAL ch with
  | Some _ => true
  | None => false
  end.

(** No decimal digit of the table is white space, as in every Unicode
    database. *)
Definition decimals_are_not_spaces : bool :=
  forallb (fun z => forallb (fun d => negb (Py_UNICODE_ISSPACE (z + d)))
                      [0; 1; 2; 3; 4; 5; 6; 7; 8; 9]%N)
    unicode_decimal_zeros.

Fixpoint transform_decimal_and_space (s : pystr) : list N :=
  match s with
  | [] => []
  | ch :: s' =>
      if (ch <? 127)%N then ch :: transform_decimal_and_space s'
      else if Py_UNICODE_ISSPACE ch then Chr.space :: transform_decimal_and_space s'
      else
        match Py_UNICODE_TODECIMAL ch with
        | Some d => (Chr.zero + d)%N :: transform_decimal_and_space s'
        | None => [Chr.question]
        end
  end.

(** [_PyUnicode_TransformDecimalAndSpaceToASCII]: an ASCII string is
    returned as it is; otherwise white space becomes a blank, a decimal
    digit its ASCII digit, and the text is cut after a ['?'] at the first
    code point that is neither. *)
Definition PyUnicode_TransformDecimalAndSpaceToASCII (s : pystr) : list N :=
  if forallb (fun c => c <? 128)%N s then s else transform_decimal_and_space s.

(** *** [int(str)] *)

(** The loop of [long_from_string_base] over digits and underscores:
    the digits read and the text left, or [None] on a doubled or trailing
    underscore. *)
Fixpoint long_scan (prev : N) (s : list N) : option (list Z * list N) :=
  let stop := if (prev =? Chr.underscore)%N then None else Some ([], s) in
  match s with
  | c :: s' =>
      if is_ascii_digit c then
        match long_scan c s' with
        | Some (ds, r) => Some (ascii_value c :: ds, r)
        | None => None
        end
      else if (c =? Chr.underscore)%N then
        if (prev =? Chr.underscore)%N then None else long_scan c s'
      else stop
  | [] => stop
  end.

Definition PY_LONG_MAX_STR_DIGITS_THRESHOLD : Z := 640.

(** The limit of [long_from_string_base] on the number of digits. *)
Definition exceeds_int_max_str_digits (digits : Z) : bool :=
  (PY_LONG_MAX_STR_DIGITS_THRESHOLD <? digits)
  && (0 <? int_max_str_digits) && (int_max_str_digits <? digits).

(** [PyLong_FromString] in base 10. *)
Definition PyLong_FromString (s : list N) : outcome Z :=
  let '(neg, s1) := parse_sign (lstrip s) in
  match s1 with
  | [] => Raise ValueError
  | c :: _ =>
      if (c =? Chr.underscore)%N then Raise ValueError
      else
        match long_scan 0%N s1 with
        | None | Some ([], _) => Raise ValueError
        | Some (ds, r) =>
            if negb (forallb Py_ISSPACE r) then Raise ValueError
            else
              if exceeds_int_max_str_digits (Z.of_nat (length ds)) then Raise ValueError
              else Return (if neg then - digits_value ds else digits_value ds)
        end
  end.

Definition PyLong_FromUnicodeObject (s : pystr) : outcome Z :=
  PyLong_FromString (PyUnicode_TransformDecimalAndSpaceToASCII s).

(** *** [float(str)] *)

(** [_Py_string_to_number_with_underscores]: an underscore must stand
    between two digits; the text is handed on without them. *)
Fixpoint remove_underscores (prev : N) (s : list N) : option (list N) :=
  match s with
  | [] => if (prev =? Chr.underscore)%N then None else Some []
  | c :: s' =>
      if (c =? Chr.underscore)%N then
        if is_ascii_digit prev then remove_underscores c s' else None
      else if (prev =? Chr.underscore)%N && negb (is_ascii_digit c) then None
      else cons c <$> remove_underscores c s'
  end.

(** [_Py_parse_inf_or_nan]: [inf], [infinity] or [nan] in any letter
    case, after an optional sign (the letters by their code points: a 97,
    f 102, i 105, n 110, t 116, y 121). *)
Definition Py_parse_inf_or_nan (s : list N) : option (spec_float * list N) :=
  let '(neg, s1) := parse_sign s in
  match s1 with
  | c1 :: c2 :: c3 :: r =>
      if ci_eq c1 105 && ci_eq c2 110 && ci_eq c3 102 then
        match r with
        | d1 :: d2 :: d3 :: d4 :: d5 :: r' =>
            if ci_eq d1 105 && ci_eq d2 110 && ci_eq d3 105 && ci_eq d4 116 && ci_eq d5 121
            then Some (S754_infinity neg, r')
            else Some (S754_infinity neg, r)
        | _ => Some (S754_infinity neg, r)
        end
      else if ci_eq c1 110 && ci_eq c2 97 && ci_eq c3 110 then Some (S754_nan, r)
      else None
  | _ => None
  end.

(** The bounds of [dtoa.c] on what [_Py_dg_strtod] reads: an exponent
    beyond [MAX_ABS_EXP], or of more than nine digits after its leading
    zeros, is taken as [MAX_ABS_EXP]; more than [MAX_DIGITS] digits (after
    the leading zeros, or after the point) are a parse error. *)
Definition MAX_ABS_EXP : Z := 1100000000.
Definition MAX_DIGITS : Z := 1000000000.

Definition exceeds_strtod_max_digits (significant fraction : nat) : bool :=
  (MAX_DIGITS <? Z.of_nat significant) || (MAX_DIGITS <? Z.of_nat fraction).

(** The exponent part: [e] (code point 101) or [E], an optional sign and at
    least one digit; without a digit nothing is consumed. *)
Definition strtod_exponent (s : list N) : Z * list N :=
  match s with
  | c :: s1 =>
      if ci_eq c 101 then
        let '(neg, s2) := parse_sign s1 in
        match span_digits s2 with
        | ([], _) => (0, s)
        | (ds, s3) =>
            let abs_exp :=
              if (9 <? Z.of_nat (length (drop_zeros ds))) || (MAX_ABS_EXP <? digits_value ds)
              then MAX_ABS_EXP else digits_value ds in
            (if neg then - abs_exp else abs_exp, s3)
        end
      else (0, s)
  | [] => (0, [])
  end.

(** [_Py_dg_strtod]: sign, digits, an optional point and digits, an
    optional exponent; at least one digit, and no more than [MAX_DIGITS].
    The value is correctly rounded. *)
Definition Py_dg_strtod (s : list N) : option (spec_float * list N) :=
  let '(neg, s1) := parse_sign s in
  let '(ip, s2) := span_digits s1 in
  let '(fp, s3) :=
    match s2 with
    | c :: s2' => if (c =? Chr.dot)%N then span_digits s2' else ([], s2)
    | [] => ([], [])
    end in
  match ip ++ fp with
  | [] => None
  | ds =>
      if exceeds_strtod_max_digits (length (drop_zeros ds)) (length fp) then None
      else
        let '(ex, s4) := strtod_exponent s3 in
        Some (decimal_to_float neg (digits_value ds) (ex - Z.of_nat (length fp)), s4)
  end.

(** [float_from_string_inner]: the whole text must be consumed. *)
Definition float_from_string_inner (s : list N) : outcome spec_float :=
  match Py_parse_inf_or_nan s with
  | Some (f, r) => match r with [] => Return f | _ => Raise ValueError end
  | None =>
      match Py_dg_strtod s with
      | Some (f, []) => Return f
      | _ => Raise ValueError
      end
  end.

(** [PyFloat_FromString] on a [str]. *)
Definition PyFloat_FromString (s : pystr) : outcome spec_float :=
  let t := rstrip (lstrip (PyUnicode_TransformDecimalAndSpaceToASCII s)) in
  match t with
  | [] => Raise ValueError
  | _ =>
      if existsb (fun c => c =? Chr.underscore)%N t then
        match remove_underscores 0%N t with
        | Some t' => float_from_string_inner t'
        | None => Raise ValueError
        end
      else float_from_string_inner t
  end.

(** ** Values held in the lead record *)

(** What the script stores or passes as a default: the text of an answer
    ([str]), the scheduling choice ([bool]), the [int] defaults of
    [dict.get] and the [datetime] of a score record (a clock reading). *)
Inductive value : Type :=
| VStr (s : pystr)
| VInt (z : Z)
| VBool (b : bool)
| VDatetime (t : Z).

(** [float(v)]. *)
Definition py_float (v : value) : outcome spec_float :=
  match v with
  | VStr s => PyFloat_FromString s
  | VInt z => PyLong_AsDouble z
  | VBool b => PyLong_AsDouble (if b then 1 else 0)
  | VDatetime _ => Raise TypeError
  end.

(** [int(v)]. *)
Definition py_int (v : value) : outcome Z :=
  match v with
  | VStr s => PyLong_FromUnicodeObject s
  | VInt z => Return z
  | VBool b => Return (if b then 1 else 0)
  | VDatetime _ => Raise TypeError
  end.

(** *** The digits of a text *)

(** The value of a decimal digit and the ASCII digit that stands for it. *)
Definition digit_value (c : N) : Z := Z.of_N (default 0%N (Py_UNICODE_TODECIMAL c)).
Definition ascii_digit_of (c : N) : N := (Chr.zero + default 0 (Py_UNICODE_TODECIMAL c))%N.

(** The decimal digits of a text, their number, and the number they
    write. *)
Definition decimal_digits (s : pystr) : list N := List.filter Py_UNICODE_ISDECIMAL s.
Definition digit_count (s : pystr) : nat := length (decimal_digits s).
Definition number_value (s : pystr) : Z := digits_value (map digit_value (decimal_digits s)).

(** The number of digits of a text after its leading zeros. *)
Definition significant_digits (s : pystr) : nat :=
  length (drop_zeros (map digit_value (decimal_digits s))).

End Conversions.

(** ** Dictionaries *)

(** [d[k]]. *)
Definition getitem {V : Type} (d : gmap string V) (k : string) : outcome V :=
  match d !! k with
  | Some v => Return v
  | None => Raise KeyError
  end.

(** [d.get(k, dflt)]. *)
Definition dict_get {V : Type} (d : gmap string V) (k : string) (dflt : V) : V :=
  default dflt (d !! k).

(** [k in d]. *)
Definition contains {V : Type} (d : gmap string V) (k : string) : bool :=
  bool_decide (is_Some (d !! k)).

(** ** The lead scorer *)

Record criterion : Type := { threshold : number; weight : number }.

(** The float literals [0.4] and [0.3]. *)
Definition float_0_4 : spec_float := decimal_to_float false 4 (-1).
Definition float_0_3 : spec_float := decimal_to_float false 3 (-1).

Definition QUALIFICATION_CRITERIA : gmap string criterion :=
  {[ "budget" := {| threshold := NInt 10000; weight := NFloat float_0_4 |};
     "timeline" := {| threshold := NInt 30; weight := NFloat float_0_3 |};
     "interest_level" := {| threshold := NInt 7; weight := NFloat float_0_3 |} ]}.

Section Scorer.

Context {py : interpreter}.

(** [score += QUALIFICATION_CRITERIA[field]["weight"] * 100]. *)
Definition add_weight (score : number) (field : string) : outcome number :=
  c ← getitem QUALIFICATION_CRITERIA field;
  points ← py_mul (weight c) (NInt 100);
  py_add score points.

(** The body of the [try] of [qualify_lead]: the final score and the
    category returned. *)
Definition qualify_lead_try (lead_data : gmap string value) : outcome (number * string) :=
  let score := NInt 0 in
  budget ← py_float (dict_get lead_data "budget" (VInt 0));
  timeline ← py_int (dict_get lead_data "timeline" (VInt 999));
  interest_level ← py_int (dict_get lead_data "interest_level" (VInt 0));
  cb ← getitem QUALIFICATION_CRITERIA "budget";
  score ← (if py_ge (NFloat budget) (threshold cb)
           then add_weight score "budget" else Return score);
  ct ← getitem QUALIFICATION_CRITERIA "timeline";
  score ← (if py_le (NInt timeline) (threshold ct)
           then add_weight score "timeline" else Return score);
  ci ← getitem QUALIFICATION_CRITERIA "interest_level";
  score ← (if py_ge (NInt interest_level) (threshold ci)
           then add_weight score "interest_level" else Return score);
  if py_ge score (NInt 80) then Return (score, "Hot")
  else if py_ge score (NInt 50) then Return (score, "Warm")
  else Return (score, "Cold").

Definition qualify_lead (lead_data : gmap string value) : string :=
  try_except (snd <$> qualify_lead_try lead_data) "Cold".

End Scorer.

(** *** The scoring rule as the specification words it *)

(** The score the three threshold tests add up to: 40 for the budget, 30 for
    the timeline, 30 for the interest level. *)
Definition spec_weighted_score (budget_met timeline_met interest_met : bool) : Z :=
  (if budget_met then 40 else 0) + (if timeline_met then 30 else 0)
  + (if interest_met then 30 else 0).

(** Hot from 80, Warm from 50, Cold below. *)
Definition spec_category (score : Z) : string :=
  if 80 <=? score then "Hot" else if 50 <=? score then "Warm" else "Cold".

(** The [float] of an [int] within the exact range. *)
Definition float_of_Z (z : Z) : spec_float := binary_normalize prec emax z 0 false.

(** An exception is raised. *)
Definition raises {A : Type} (m : outcome A) : Prop := exists e, m = Raise e.

(** ** Regular expressions *)

(** The patterns of the validation table as [re] parses them. A capturing
    group matches what its body matches, so it is left out. *)
Inductive class_item : Type :=
| Literal (c : N)
| Range (lo hi : N)
| Category_digit.

Inductive regex : Type :=
| At_beginning
| At_end
| In_class (items : list class_item)
| Seq (r1 r2 : regex)
| Branch (r1 r2 : regex)
| Max_repeat (lo : nat) (hi : option nat) (r : regex).

Declare Scope regex_scope.
Delimit Scope regex_scope with re.
Bind Scope regex_scope with regex.
Notation "r1 +++ r2" := (Seq r1 r2) (at level 60, right associativity) : regex_scope.

(** A single character, [+] and [?]. *)
Definition chr (a : ascii) : regex := In_class [Literal (N_of_ascii a)].
Definition plus (r : regex) : regex := Max_repeat 1 None r.
Definition opt (r : regex) : regex := Max_repeat 0 (Some 1%nat) r.
Definition range (a b : ascii) : class_item := Range (N_of_ascii a) (N_of_ascii b).
Definition lit (a : ascii) : class_item := Literal (N_of_ascii a).

Definition below (count : nat) (hi : option nat) : bool :=
  match hi with
  | Some h => (count <? h)%nat
  | None => true
  end.

(** A greedy repetition of a body with matcher [m], between [lo] and [hi]
    times: one more iteration, or the rest [k] once [lo] is reached. An
    iteration that consumed nothing is not repeated beyond [lo]. *)
Fixpoint iterate (m : bool -> pystr -> (bool -> pystr -> bool) -> bool)
    (lo : nat) (hi : option nat) (k : bool -> pystr -> bool)
    (fuel count : nat) (bos : bool) (s : pystr) {struct fuel} : bool :=
  match fuel with
  | O => false
  | S fuel' =>
      below count hi
      && m bos s (fun b s' =>
           ((length s' <? length s)%nat || (count <? lo)%nat)
           && iterate m lo hi k fuel' (S count) b s')
      || (lo <=? count)%nat && k bos s
  end.

Section Matcher.

Context {py : interpreter}.

Definition in_item (c : N) (i : class_item) : bool :=
  match i with
  | Literal x => (c =? x)%N
  | Range lo hi => ((lo <=? c) && (c <=? hi))%N
  | Category_digit => Py_UNICODE_ISDECIMAL c
  end.

(** Membership in a character class. *)
Definition in_class (items : list class_item) (c : N) : bool :=
  existsb (in_item c) items.

(** [rmatch r bos s k]: some way of matching [r] at the head of [s]
    leaves a rest that [k] accepts; [bos] tells that [s] is the whole
    subject (position 0). [$] matches at the end and before a final
    newline. *)
Fixpoint rmatch (r : regex) (bos : bool) (s : pystr)
    (k : bool -> pystr -> bool) {struct r} : bool :=
  match r with
  | At_beginning => bos && k bos s
  | At_end =>
      match s with
      | [] => k bos s
      | [c] => (c =? Chr.newline)%N && k bos s
      | _ => false
      end
  | In_class items =>
      match s with
      | c :: s' => in_class items c && k false s'
      | [] => false
      end
  | Seq r1 r2 => rmatch r1 bos s (fun b s' => rmatch r2 b s' k)
  | Branch r1 r2 => rmatch r1 bos s k || rmatch r2 bos s k
  | Max_repeat lo hi r1 =>
      iterate (rmatch r1) lo hi k (S (length s + lo)) O bos s
  end.

(** [re.match(pattern, string)] as a truth value. *)
Definition re_match (pattern : regex) (subject : pystr) : bool :=
  rmatch pattern true subject (fun _ _ => true).

End Matcher.

(** ** The field validator *)

Record validation_rule : Type := { pattern : regex; message : string }.

Definition alnum : list class_item := [range "a" "z"; range "A" "Z"; range "0" "9"].

Definition validation_rules : gmap string validation_rule :=
  {[ "email" := {|
       (* ^[a-zA-Z0-9_.+-]+@[a-zA-Z0-9-]+\.[a-zA-Z0-9-.]+$ *)
       pattern := (At_beginning
                   +++ plus (In_class (alnum ++ [lit "_"; lit "."; lit "+"; lit "-"]))
                   +++ chr "@" +++ plus (In_class (alnum ++ [lit "-"]))
                   +++ chr "." +++ plus (In_class (alnum ++ [lit "-"; lit "."]))
                   +++ At_end)%re;
       message := "Please enter a valid email address (e.g., name@company.com)" |};
     "phone" := {|
       (* ^\+?[1-9]\d{1,14}$ *)
       pattern := (At_beginning +++ opt (chr "+") +++ In_class [range "1" "9"]
                   +++ Max_repeat 1 (Some 14%nat) (In_class [Category_digit])
                   +++ At_end)%re;
       message := "Please enter a valid phone number with country code (e.g., +1234567890)" |};
     "number" := {|
       (* ^\d+$ *)
       pattern := (At_beginning +++ plus (In_class [Category_digit]) +++ At_end)%re;
       message := "Please enter a valid number" |};
     "scale" := {|
       (* ^([1-9]|10)$ *)
       pattern := (At_beginning
                   +++ Branch (In_class [range "1" "9"]) (chr "1" +++ chr "0")
                   +++ At_end)%re;
       message := "Please enter a number between 1-10" |} ]}.

Section Validator.

Context {py : interpreter}.

(** [validate_response]; the message of a failed rule is only shown. *)
Definition validate_response (response : pystr) (field_type : string) : bool :=
  match validation_rules !! field_type with
  | Some rule => if negb (re_match (pattern rule) response) then false else true
  | None => true
  end.

End Validator.

(** ** Session state *)

(** An entry of the interaction log; [timestamp] is the clock reading whose
    ISO text the script stores. *)
Record interaction_event : Type := {
  timestamp : Z;
  event_type : string;
  metadata : gmap string value
}.

(** [st.session_state]; the [analytics] dictionary is laid out flat. *)
Record session_state : Type := {
  messages : list (string * string);
  lead_data : gmap string value;
  conversation_stage : string;
  interactions : list interaction_event;
  conversion_rate : Z;
  lead_scores : list (gmap string value)
}.

(** The state the top of the script sets up when the session is empty. *)
Definition initial_state : session_state := {|
  messages := [];
  lead_data := ∅;
  conversation_stage := "greeting";
  interactions := [];
  conversion_rate := 0;
  lead_scores := []
|}.

Definition set_conversation_stage (stage : string) (st : session_state) : session_state :=
  {| messages := messages st; lead_data := lead_data st;
     conversation_stage := stage;
     interactions := interactions st; conversion_rate := conversion_rate st;
     lead_scores := lead_scores st |}.

Definition set_lead_data (field : string) (v : value) (st : session_state) : session_state :=
  {| messages := messages st; lead_data := <[field := v]> (lead_data st);
     conversation_stage := conversation_stage st;
     interactions := interactions st; conversion_rate := conversion_rate st;
     lead_scores := lead_scores st |}.

Definition append_lead_score (r : gmap string value) (st : session_state) : session_state :=
  {| messages := messages st; lead_data := lead_data st;
     conversation_stage := conversation_stage st;
     interactions := interactions st; conversion_rate := conversion_rate st;
     lead_scores := lead_scores st ++ [r] |}.

(** [track_analytics]. *)
Definition track_analytics (now : Z) (event : string) (meta : gmap string value)
    (st : session_state) : session_state :=
  {| messages := messages st; lead_data := lead_data st;
     conversation_stage := conversation_stage st;
     interactions := interactions st
       ++ [{| timestamp := now; event_type := event; metadata := meta |}];
     conversion_rate := conversion_rate st;
     lead_scores := lead_scores st |}.

(** ** The stage sequencer *)

(** A question dictionary: ["question"], ["type"] and, for a question that
    fills a field, ["field"]. *)
Record question : Type := {
  q_question : string;
  q_field : option string;
  q_type : string
}.

(** [q["field"]]. *)
Definition question_field (q : question) : outcome string :=
  match q_field q with
  | Some f => Return f
  | None => Raise KeyError
  end.

Definition stages_greeting : question :=
  {| q_question := "Hi there! 👋 Welcome to Opolla. How can we help you today?";
     q_field := None; q_type := "greeting" |}.

Definition stages_qualify : list question :=
  [ {| q_question := "What's your estimated budget for this project? (USD)";
       q_field := Some "budget"; q_type := "number" |};
    {| q_question := "What's your ideal timeline for implementation (in days)?";
       q_field := Some "timeline"; q_type := "number" |};
    {| q_question := "On a scale of 1-10, how urgent is this need?";
       q_field := Some "interest_level"; q_type := "scale" |} ].

Definition stages_contact : list question :=
  [ {| q_question := "What's your full name?";
       q_field := Some "name"; q_type := "text" |};
    {| q_question := "What's your email address?";
       q_field := Some "email"; q_type := "email" |};
    {| q_question := "What's the best phone number to reach you?";
       q_field := Some "phone"; q_type := "phone" |} ].

Definition stages_schedule : question :=
  {| q_question := "Would you like to schedule a call with our expert?";
     q_field := None; q_type := "schedule" |}.

Definition fallback_question : question :=
  {| q_question := "How can I help you today?"; q_field := None; q_type := "fallback" |}.

(** The fields that the questions of the two stages fill. *)
Definition qualify_fields : list string := ["budget"; "timeline"; "interest_level"].
Definition contact_fields : list string := ["name"; "email"; "phone"].

(** The field [f] has an answer in [data]. *)
Definition present (data : gmap string value) (f : string) : Prop := is_Some (data !! f).

(** [for q in qs: if q["field"] not in lead_data: return q]: the question
    returned, or [None] when the loop runs to its end. *)
Fixpoint first_unanswered (qs : list question) (data : gmap string value)
    : outcome (option question) :=
  match qs with
  | [] => Return None
  | q :: qs' =>
      f ← question_field q;
      if negb (contains data f) then Return (Some q) else first_unanswered qs' data
  end.

(** Every field of the questions [qs] is present in [data]. *)
Definition all_answered (qs : list question) (data : gmap string value) : Prop :=
  Forall (fun q => exists f, q_field q = Some f /\ is_Some (data !! f)) qs.

(** Only a call at stage ["qualify"] calls [get_next_question] again, and
    then at stage ["contact"]. *)
Definition stage_rank (stage : string) : nat :=
  if (stage =? "qualify")%string then 1 else 0.

(** [get_next_question]: the question returned and the session state it
    leaves. An exception inside the [try] is reported and the function falls
    through to the fallback question. *)
Equations get_next_question (st : session_state) : question * session_state
  by wf (stage_rank (conversation_stage st)) lt :=
get_next_question st with inspect (conversation_stage st =? "greeting")%string := {
  | exist _ true _ => (stages_greeting, st)
  | exist _ false _ with inspect (conversation_stage st =? "qualify")%string := {
    | exist _ true Hq with first_unanswered stages_qualify (lead_data st) := {
      | Return (Some q) => (q, st)
      | Return None => get_next_question (set_conversation_stage "contact" st)
      | Raise _ => (fallback_question, st) }
    | exist _ false _ =>
        if (conversation_stage st =? "contact")%string then
          match first_unanswered stages_contact (lead_data st) with
          | Return (Some q) => (q, st)
          | Return None => (stages_schedule, set_conversation_stage "schedule" st)
          | Raise _ => (fallback_question, st)
          end
        else if (conversation_stage st =? "schedule")%string then (stages_schedule, st)
        else (fallback_question, st) } }.
Next Obligation.
  unfold stage_rank. rewrite Hq. simpl. lia.
Qed.

(** ** The script body *)

(** What one run of the script reads from the page: the text of each input
    widget by key, the buttons pressed, and the clock (one reading stands
    for every [datetime.now()] of the run). *)
Record page : Type := {
  text_input : string -> pystr;
  yes_clicked : bool;
  no_clicked : bool;
  reset_clicked : bool;
  now : Z
}.

(** [st.rerun()] ends the run at once; the statements after it are not
    executed. *)
Inductive run : Type :=
| Continue (st : session_state)
| Rerun (st : session_state).

Definition required_fields : list string :=
  ["name"; "email"; "phone"; "budget"; "timeline"; "interest_level"].

(** A complete record of the score log: the six required fields, a category
    and a timestamp. *)
Definition score_record_complete (r : gmap string value) : Prop :=
  Forall (present r) required_fields
  /\ (exists c, r !! "category" = Some (VStr c))
  /\ (exists t, r !! "timestamp" = Some (VDatetime t)).

Section Script.

Context {py : interpreter}.

(** The main conversation handler (the block under
    [conversation_stage != "completed"]). *)
Definition conversation_handler (io : page) (st : session_state) : run :=
  if negb (conversation_stage st =? "completed")%string then
    let '(next_q, st) := get_next_question st in
    if (q_type next_q =? "greeting")%string then
      Rerun (set_conversation_stage "qualify" st)
    else if (q_type next_q =? "schedule")%string then
      if yes_clicked io then
        Rerun (track_analytics (now io) "meeting_scheduled" ∅
                 (set_lead_data "scheduled" (VBool true) st))
      else if no_clicked io then
        Rerun (track_analytics (now io) "meeting_declined" ∅
                 (set_lead_data "scheduled" (VBool false) st))
      else Continue st
    else
      match q_field next_q with
      | Some field =>
          let user_input := text_input io ("input_" ++ field) in
          match user_input with
          | [] => Continue st
          | _ =>
              if validate_response user_input (q_type next_q) then
                Rerun (track_analytics (now io) "question_answered"
                         {[ "field" := VStr (u field); "value" := VStr user_input ]}
                         (set_lead_data field (VStr user_input) st))
              else Continue st
          end
      | None => Continue st
      end
  else Continue st.

(** [{**lead_data, "category": category, "timestamp": datetime.now()}]. *)
Definition score_record (io : page) (category : string) (data : gmap string value)
    : gmap string value :=
  <["timestamp" := VDatetime (now io)]> (<["category" := VStr (u category)]> data).

(** The final conversion handling. *)
Definition final_conversion (io : page) (st : session_state) : session_state :=
  if forallb (contains (lead_data st)) required_fields then
    let st := set_conversation_stage "completed" st in
    let category := qualify_lead (lead_data st) in
    let st := append_lead_score (score_record io category (lead_data st)) st in
    track_analytics (now io) "conversion" ∅ st
  else st.

(** One run of [main]. The reset button clears the session; the top of
    the next run then sets up [initial_state]. *)
Definition main (io : page) (st : session_state) : session_state :=
  match conversation_handler io st with
  | Rerun st => st
  | Continue st =>
      let st := final_conversion io st in
      if reset_clicked io then initial_state else st
  end.

End Script.

(** The session states the script can be in: the initial one and what a run
    of [main] makes of one. *)
Inductive reachable {py : interpreter} : session_state -> Prop :=
| reachable_initial : reachable initial_state
| reachable_main io st : reachable st -> reachable (main io st).

(** ** The outcomes of the sequencer and of the handler *)

(** The six outcomes of [get_next_question]. *)
Inductive next_question (st : session_state) : question * session_state -> Prop :=
| next_greeting :
    conversation_stage st = "greeting" ->
    next_question st (stages_greeting, st)
| next_qualify q :
    conversation_stage st = "qualify" ->
    first_unanswered stages_qualify (lead_data st) = Return (Some q) ->
    next_question st (q, st)
| next_contact q :
    conversation_stage st = "qualify"
      /\ first_unanswered stages_qualify (lead_data st) = Return None
    \/ conversation_stage st = "contact" ->
    first_unanswered stages_contact (lead_data st) = Return (Some q) ->
    next_question st (q, set_conversation_stage "contact" st)
| next_schedule :
    conversation_stage st = "qualify"
      /\ first_unanswered stages_qualify (lead_data st) = Return None
    \/ conversation_stage st = "contact" ->
    first_unanswered stages_contact (lead_data st) = Return None ->
    next_question st (stages_schedule, set_conversation_stage "schedule" st)
| next_scheduled :
    conversation_stage st = "schedule" ->
    next_question st (stages_schedule, st)
| next_fallback :
    conversation_stage st <> "greeting" ->
    conversation_stage st <> "qualify" ->
    conversation_stage st <> "contact" ->
    conversation_stage st <> "schedule" ->
    next_question st (fallback_question, st).

Section Outcomes.

Context {py : interpreter}.

(** The outcomes of the conversation handler. *)
Inductive handler_outcome (io : page) (st : session_state) : run -> Prop :=
| outcome_completed :
    conversation_stage st = "completed" ->
    handler_outcome io st (Continue st)
| outcome_greeting :
    conversation_stage st = "greeting" ->
    handler_outcome io st (Rerun (set_conversation_stage "qualify" st))
| outcome_scheduled st0 (accepted : bool) :
    conversation_stage st <> "completed" ->
    next_question st (stages_schedule, st0) ->
    (if accepted then yes_clicked io = true
     else yes_clicked io = false /\ no_clicked io = true) ->
    handler_outcome io st
      (Rerun (track_analytics (now io)
                (if accepted then "meeting_scheduled" else "meeting_declined") ∅
                (set_lead_data "scheduled" (VBool accepted) st0)))
| outcome_answered q st0 f :
    conversation_stage st <> "completed" ->
    next_question st (q, st0) ->
    q_field q = Some f ->
    text_input io ("input_" ++ f) <> [] ->
    validate_response (text_input io ("input_" ++ f)) (q_type q) = true ->
    handler_outcome io st
      (Rerun (track_analytics (now io) "question_answered"
                {[ "field" := VStr (u f);
                   "value" := VStr (text_input io ("input_" ++ f)) ]}
                (set_lead_data f (VStr (text_input io ("input_" ++ f))) st0)))
| outcome_waiting q st0 :
    conversation_stage st <> "completed" ->
    next_question st (q, st0) ->
    q = stages_schedule /\ yes_clicked io = false /\ no_clicked io = false
    \/ (exists f, q_field q = Some f
                  /\ (text_input io ("input_" ++ f) = []
                      \/ validate_response (text_input io ("input_" ++ f)) (q_type q)
                         = false))
    \/ q = fallback_question ->
    handler_outcome io st (Continue st0).

End Outcomes.

(** ** The progress indicator *)

Definition progress_stages : gmap string Z :=
  {[ "greeting" := 0; "qualify" := 25; "contact" := 50; "schedule" := 75;
     "completed" := 100 ]}.

(** [show_progress]: the percentage [current_progress] that the bar and its
    caption show. *)
Definition show_progress (st : session_state) : Z :=
  dict_get progress_stages (conversation_stage st) 0.

(** ** The analytics panel *)

(** [df["category"] == c] on a row of the frame of the score log. *)
Definition has_category (c : string) (r : gmap string value) : bool :=
  match r !! "category" with
  | Some (VStr s) => bool_decide (s = u c)
  | _ => false
  end.

(** The metric "Total Leads", [len(df)]. *)
Definition total_leads (st : session_state) : nat := length (lead_scores st).

(** The bar of category [c] in [df["category"].value_counts()]. *)
Definition value_counts (st : session_state) (c : string) : nat :=
  length (List.filter (has_category c) (lead_scores st)).

(** The metric "Hot Leads", [len(df[df["category"] == "Hot"])]. *)
Definition hot_leads (st : session_state) : nat :=
  length (List.filter (has_category "Hot") (lead_scores st)).

(** The events that [track_analytics("conversion")] logs. *)
Definition is_conversion (e : interaction_event) : bool :=
  (event_type e =? "conversion")%string.

(** ** What holds of every session the script reaches *)

(** The answer to a question, when there is one, is a non-empty text that
    the validator accepted for the type of the question. *)
Definition validated_answer {py : interpreter} (data : gmap string value)
    (q : question) : Prop :=
  forall f v, q_field q = Some f -> data !! f = Some v ->
    exists s, v = VStr s /\ s <> [] /\ validate_response s (q_type q) = true.

(** A record of the score log carries one of the three categories. *)
Definition categorised (r : gmap string value) : Prop :=
  exists c, In c ["Hot"; "Warm"; "Cold"]%string /\ r !! "category" = Some (VStr (u c)).

Record session_invariant {py : interpreter} (st : session_state) : Prop := {
  inv_stage :
    In (conversation_stage st)
      ["greeting"; "qualify"; "contact"; "schedule"; "completed"]%string;
  inv_qualify :
    In (conversation_stage st) ["contact"; "schedule"; "completed"]%string ->
    Forall (present (lead_data st)) qualify_fields;
  inv_contact :
    In (conversation_stage st) ["schedule"; "completed"]%string ->
    Forall (present (lead_data st)) contact_fields;
  inv_answers :
    Forall (validated_answer (lead_data st)) (stages_qualify ++ stages_contact);
  inv_scores : Forall categorised (lead_scores st);
  inv_conversions :
    length (List.filter is_conversion (interactions st)) = length (lead_scores st);
  inv_messages : messages st = [];
  inv_rate : conversion_rate st = 0
}.

(** ** The character classes of the email pattern *)

(** The characters of [a-zA-Z0-9]. *)
Definition ascii_alnum (c : N) : bool :=
  ((97 <=? c) && (c <=? 122) || (65 <=? c) && (c <=? 90) || (48 <=? c) && (c <=? 57))%N.

(** The characters of [[a-zA-Z0-9_.+-]], [[a-zA-Z0-9-]] and [[a-zA-Z0-9-.]]. *)
Definition email_local_char (c : N) : bool :=
  ascii_alnum c || existsb (N.eqb c) (u "_.+-").

Definition email_domain_char (c : N) : bool :=
  ascii_alnum c || existsb (N.eqb c) (u "-").

Definition email_suffix_char (c : N) : bool :=
  ascii_alnum c || existsb (N.eqb c) (u "-.").

(** ** Sample leads, sessions and pages *)

Definition hot_lead : gmap string value :=
  {[ "budget" := VStr (u "20000"); "timeline" := VStr (u "10");
     "interest_level" := VStr (u "9") ]}.

(** No interest level given: the default 0 applies. *)
Definition warm_lead : gmap string value :=
  {[ "budget" := VStr (u "20000"); "timeline" := VStr (u "10") ]}.

Definition unparsable_lead : gmap string value :=
  {[ "budget" := VStr (u "abc"); "timeline" := VStr (u "10");
     "interest_level" := VStr (u "9") ]}.

(** The budget in Arabic-Indic digits, the timeline with a final newline. *)
Definition unicode_lead : gmap string value :=
  {[ "budget" := VStr [1634; 1632; 1632; 1632; 1632]%N;
     "timeline" := VStr (u "10" ++ [Chr.newline]);
     "interest_level" := VStr (u "9") ]}.

(** A timeline of 4301 digits: a one and 4300 zeros. *)
Definition long_timeline : pystr := 49%N :: repeat 48%N 4300.

(** A budget of 1000000001 digits, all ones. *)
Definition long_budget : pystr := repeat 49%N (Z.to_nat 1000000001).

Definition long_budget_lead : gmap string value :=
  <["budget" := VStr long_budget]> hot_lead.

Definition long_timeline_lead : gmap string value :=
  {[ "budget" := VStr (u "20000"); "timeline" := VStr long_timeline;
     "interest_level" := VStr (u "9") ]}.

Definition session_at (stage : string) (data : gmap string value) : session_state :=
  {| messages := []; lead_data := data; conversation_stage := stage;
     interactions := []; conversion_rate := 0; lead_scores := [] |}.

Definition contact_data : gmap string value :=
  {[ "name" := VStr (u "Ada"); "email" := VStr (u "a@b.co");
     "phone" := VStr (u "+14155551234") ]}.

(** Nothing is typed and no button is pressed. *)
Definition idle_page : page :=
  {| text_input := fun _ => []; yes_clicked := false; no_clicked := false;
     reset_clicked := false; now := 0 |}.

(** A page on which [text] is typed into the input of [field]. *)
Definition answer_page (field : string) (text : pystr) : page :=
  {| text_input := fun key => if (key =? "input_" ++ field)%string then text else [];
     yes_clicked := false; no_clicked := false; reset_clicked := false; now := 0 |}.

(** The runs of the script on a sequence of pages. *)
Definition run_pages {py : interpreter} (pages : list page) (st : session_state)
    : session_state :=
  fold_left (fun st io => main io st) pages st.

(** The pages of a conversation in which the six questions are answered in
    turn: the greeting, one page per answer, and the run that shows the
    schedule question. *)
Definition conversation (budget timeline interest name email phone : pystr) : list page :=
  [ idle_page;
    answer_page "budget" budget; answer_page "timeline" timeline;
    answer_page "interest_level" interest;
    answer_page "name" name; answer_page "email" email; answer_page "phone" phone;
    idle_page ].

(** The lead record that the six answers make. *)
Definition answers (budget timeline interest name email phone : pystr)
    : gmap string value :=
  <["phone" := VStr phone]> (<["email" := VStr email]> (<["name" := VStr name]>
    (<["interest_level" := VStr interest]> (<["timeline" := VStr timeline]>
       (<["budget" := VStr budget]> ∅))))).

Definition sample_conversation : list page :=
  conversation (u "20000") (u "10") (u "9") (u "Ada") (u "a@b.co") (u "+14155551234").

Definition completed_session : session_state :=
  run_pages (py := cpython_3_11) sample_conversation initial_state.

(** The interest level is still to be asked. *)
Definition asking_interest : session_state := session_at "qualify" warm_lead.

(** * Properties *)

(** ** Numbers *)

Lemma py_le_int (a b : Z) : py_le (NInt a) (NInt b) = (a <=? b).
Proof.
  unfold py_le, number_compare, Z.leb. destruct (a ?= b); reflexivity.
Qed.

Lemma py_ge_int (a b : Z) : py_ge (NInt a) (NInt b) = (b <=? a).
Proof.
  unfold py_ge, number_compare. rewrite (Z.leb_compare b a), (Z.compare_antisym a b).
  destruct (a ?= b); reflexivity.
Qed.

Lemma dict_get_Some {V : Type} (d : gmap string V) (k : string) (dflt v : V) :
  d !! k = Some v -> dict_get d k dflt = v.
Proof. intros H. unfold dict_get. rewrite H. reflexivity. Qed.

(** The products [weight * 100] are the floats 40.0 and 30.0. *)
Lemma weight_times_100 :
  py_mul (NFloat float_0_4) (NInt 100) = Return (NFloat (float_of_Z 40))
  /\ py_mul (NFloat float_0_3) (NInt 100) = Return (NFloat (float_of_Z 30)).
Proof. split; vm_compute; reflexivity. Qed.

(** ** The lead scorer *)

Section ScorerFacts.

Context {py : interpreter}.

(** The run of the [try] body once the three conversions have succeeded. *)
Lemma qualify_lead_try_parsed (ld : gmap string value) (budget : spec_float)
    (timeline interest_level : Z) :
  py_float (dict_get ld "budget" (VInt 0)) = Return budget ->
  py_int (dict_get ld "timeline" (VInt 999)) = Return timeline ->
  py_int (dict_get ld "interest_level" (VInt 0)) = Return interest_level ->
  let score := spec_weighted_score (py_ge (NFloat budget) (NInt 10000))
                 (timeline <=? 30) (7 <=? interest_level) in
  exists s : number,
    qualify_lead_try ld = Return (s, spec_category score)
    /\ number_compare s (NInt score) = Some Eq.
Proof.
  intros Hb Ht Hi. unfold qualify_lead_try. rewrite Hb, Ht, Hi.
  cbn [mbind outcome_bind].
  change (getitem QUALIFICATION_CRITERIA "budget")
    with (Return {| threshold := NInt 10000; weight := NFloat float_0_4 |}).
  change (getitem QUALIFICATION_CRITERIA "timeline")
    with (Return {| threshold := NInt 30; weight := NFloat float_0_3 |}).
  change (getitem QUALIFICATION_CRITERIA "interest_level")
    with (Return {| threshold := NInt 7; weight := NFloat float_0_3 |}).
  cbn [mbind outcome_bind threshold].
  rewrite py_le_int, py_ge_int.
  destruct (py_ge (NFloat budget) (NInt 10000)), (timeline <=? 30),
    (7 <=? interest_level); eexists; split; vm_compute; reflexivity.
Qed.

End ScorerFacts.

Section ScorerTheorems.

Context {py : interpreter}.

(** C1. Once [float(budget)], [int(timeline)] and [int(interest_level)]
    have been taken (with the defaults 0, 999 and 0 for a missing field),
    [qualify_lead] computes a score equal to 40 if the budget is at least
    10000, plus 30 if the timeline is at most 30, plus 30 if the interest
    level is at least 7, and returns Hot from 80, Warm from 50 and Cold
    below; a lead that meets the three thresholds is Hot. *)
Theorem qualify_lead_weighted_score (ld : gmap string value) (budget : spec_float)
    (timeline interest_level : Z) :
  py_float (dict_get ld "budget" (VInt 0)) = Return budget ->
  py_int (dict_get ld "timeline" (VInt 999)) = Return timeline ->
  py_int (dict_get ld "interest_level" (VInt 0)) = Return interest_level ->
  let score :=
    (if py_ge (NFloat budget) (NInt 10000) then 40 else 0)
    + (if timeline <=? 30 then 30 else 0)
    + (if 7 <=? interest_level then 30 else 0) in
  (exists s : number,
      qualify_lead_try ld = Return (s, qualify_lead ld)
      /\ number_compare s (NInt score) = Some Eq)
  /\ qualify_lead ld
     = (if 80 <=? score then "Hot" else if 50 <=? score then "Warm" else "Cold")
  /\ (py_ge (NFloat budget) (NInt 10000) = true -> timeline <= 30 ->
      7 <= interest_level -> qualify_lead ld = "Hot").
Proof.
  intros Hb Ht Hi score.
  destruct (qualify_lead_try_parsed ld budget timeline interest_level Hb Ht Hi)
    as (s & Hrun & Hs).
  assert (Hq : qualify_lead ld = spec_category score).
  { unfold qualify_lead. rewrite Hrun. reflexivity. }
  split; [| split].
  - exists s. rewrite Hq. split; assumption.
  - exact Hq.
  - intros Hbm Htm Him. rewrite Hq. subst score.
    rewrite Hbm. apply Z.leb_le in Htm, Him. rewrite Htm, Him. reflexivity.
Qed.

(** C4. When the budget, the timeline or the interest level is a string
    that [float] or [int] refuses, [qualify_lead] returns Cold. *)
Theorem qualify_lead_parse_error_cold (ld : gmap string value) (s : pystr) :
  (ld !! "budget" = Some (VStr s) /\ raises (py_float (VStr s)))
  \/ (ld !! "timeline" = Some (VStr s) /\ raises (py_int (VStr s)))
  \/ (ld !! "interest_level" = Some (VStr s) /\ raises (py_int (VStr s))) ->
  qualify_lead ld = "Cold".
Proof.
  intros H. unfold qualify_lead, qualify_lead_try.
  destruct H as [(Hl & e & He) | [(Hl & e & He) | (Hl & e & He)]];
    rewrite (dict_get_Some _ _ _ _ Hl), He; clear He.
  - reflexivity.
  - destruct (py_float _); reflexivity.
  - destruct (py_float _); [| reflexivity].
    destruct (py_int _); reflexivity.
Qed.

(** C5. When exactly two of the three thresholds are met, [qualify_lead]
    returns Warm: with a score of 70 when the budget is one of the two,
    of 60 for the timeline and the interest level. *)
Theorem qualify_lead_two_thresholds_warm (ld : gmap string value)
    (budget : spec_float) (timeline interest_level : Z) :
  py_float (dict_get ld "budget" (VInt 0)) = Return budget ->
  py_int (dict_get ld "timeline" (VInt 999)) = Return timeline ->
  py_int (dict_get ld "interest_level" (VInt 0)) = Return interest_level ->
  let budget_met := py_ge (NFloat budget) (NInt 10000) in
  let timeline_met := timeline <=? 30 in
  let interest_met := 7 <=? interest_level in
  (Nat.b2n budget_met + Nat.b2n timeline_met + Nat.b2n interest_met = 2)%nat ->
  qualify_lead ld = "Warm"
  /\ exists s : number,
      qualify_lead_try ld = Return (s, "Warm")
      /\ number_compare s (NInt (if budget_met then 70 else 60)) = Some Eq.
Proof.
  intros Hb Ht Hi bm tm im Htwo.
  destruct (qualify_lead_try_parsed ld budget timeline interest_level Hb Ht Hi)
    as (s & Hrun & Hs).
  fold bm tm im in Hrun, Hs.
  assert (Hcat : spec_category (spec_weighted_score bm tm im) = "Warm"
                 /\ spec_weighted_score bm tm im = if bm then 70 else 60).
  { destruct bm, tm, im; simpl in Htwo; try discriminate; split; reflexivity. }
  destruct Hcat as [Hcat Hscore]. rewrite Hcat in Hrun. rewrite Hscore in Hs.
  split.
  - unfold qualify_lead. rewrite Hrun. reflexivity.
  - exists s. split; assumption.
Qed.

End ScorerTheorems.

(** ** The stage sequencer *)

Lemma contains_true {V : Type} (d : gmap string V) (k : string) :
  contains d k = true <-> is_Some (d !! k).
Proof. unfold contains. apply bool_decide_eq_true. Qed.

Lemma contains_false {V : Type} (d : gmap string V) (k : string) :
  contains d k = false <-> d !! k = None.
Proof.
  unfold contains. rewrite bool_decide_eq_false, eq_None_not_Some. reflexivity.
Qed.


Lemma first_unanswered_Some (qs : list question) (data : gmap string value) (q : question) :
  first_unanswered qs data = Return (Some q) ->
  In q qs /\ exists f, q_field q = Some f /\ data !! f = None.
Proof.
  induction qs as [| q0 qs IH]; simpl; [discriminate |].
  unfold question_field. destruct (q_field q0) as [f |] eqn:Hf; [| discriminate].
  cbn [mbind outcome_bind].
  destruct (contains data f) eqn:Hc; cbn [negb].
  - intros H. destruct (IH H) as [Hin Hq]. split; [right; exact Hin | exact Hq].
  - intros H. injection H as <-. split; [left; reflexivity |].
    exists f. split; [exact Hf | apply contains_false; exact Hc].
Qed.

Lemma first_unanswered_None (qs : list question) (data : gmap string value) :
  first_unanswered qs data = Return None -> all_answered qs data.
Proof.
  induction qs as [| q0 qs IH]; simpl; [constructor |].
  unfold question_field. destruct (q_field q0) as [f |] eqn:Hf; [| discriminate].
  cbn [mbind outcome_bind].
  destruct (contains data f) eqn:Hc; cbn [negb]; [| discriminate].
  intros H. constructor; [| exact (IH H)].
  exists f. split; [exact Hf | apply contains_true; exact Hc].
Qed.

(** With every question naming its field, the loop raises nothing, and it
    returns a question as soon as one field is missing. *)
Lemma first_unanswered_missing (qs : list question) (data : gmap string value) :
  Forall (fun q => is_Some (q_field q)) qs ->
  (exists q f, In q qs /\ q_field q = Some f /\ data !! f = None) ->
  exists q, first_unanswered qs data = Return (Some q).
Proof.
  induction 1 as [| q0 qs [f0 Hf0] _ IH]; intros (q & f & Hin & Hf & Hm).
  - destruct Hin.
  - simpl. unfold question_field. rewrite Hf0. cbn [mbind outcome_bind].
    destruct (contains data f0) eqn:Hc; cbn [negb]; [| eauto].
    destruct Hin as [-> | Hin].
    + apply contains_true in Hc. rewrite Hf in Hf0. injection Hf0 as ->.
      rewrite Hm in Hc. destruct Hc as [? Hc]. discriminate.
    + apply IH. eauto.
Qed.

Lemma stages_have_fields :
  Forall (fun q => is_Some (q_field q)) stages_qualify
  /\ Forall (fun q => is_Some (q_field q)) stages_contact.
Proof. split; repeat constructor; eexists; reflexivity. Qed.

(** The function unfolded once, as the source reads. *)
Lemma get_next_question_eq (st : session_state) :
  get_next_question st =
    if (conversation_stage st =? "greeting")%string then (stages_greeting, st)
    else if (conversation_stage st =? "qualify")%string then
      match first_unanswered stages_qualify (lead_data st) with
      | Return (Some q) => (q, st)
      | Return None => get_next_question (set_conversation_stage "contact" st)
      | Raise _ => (fallback_question, st)
      end
    else if (conversation_stage st =? "contact")%string then
      match first_unanswered stages_contact (lead_data st) with
      | Return (Some q) => (q, st)
      | Return None => (stages_schedule, set_conversation_stage "schedule" st)
      | Raise _ => (fallback_question, st)
      end
    else if (conversation_stage st =? "schedule")%string then (stages_schedule, st)
    else (fallback_question, st).
Proof.
  funelim (get_next_question st).
  - rewrite e. reflexivity.
  - rewrite e, e0. reflexivity.
  - rewrite e, Hq, Heq. reflexivity.
  - rewrite e, Hq, Heq. reflexivity.
  - rewrite e, Hq, Heq. reflexivity.
Qed.

Lemma get_next_question_contact (st : session_state) :
  conversation_stage st = "contact" ->
  get_next_question st =
    match first_unanswered stages_contact (lead_data st) with
    | Return (Some q) => (q, st)
    | Return None => (stages_schedule, set_conversation_stage "schedule" st)
    | Raise _ => (fallback_question, st)
    end.
Proof. intros H. rewrite get_next_question_eq, H. reflexivity. Qed.

Lemma get_next_question_qualify (st : session_state) :
  conversation_stage st = "qualify" ->
  get_next_question st =
    match first_unanswered stages_qualify (lead_data st) with
    | Return (Some q) => (q, st)
    | Return None =>
        match first_unanswered stages_contact (lead_data st) with
        | Return (Some q) => (q, set_conversation_stage "contact" st)
        | Return None => (stages_schedule, set_conversation_stage "schedule" st)
        | Raise _ => (fallback_question, set_conversation_stage "contact" st)
        end
    | Raise _ => (fallback_question, st)
    end.
Proof.
  intros H. rewrite get_next_question_eq, H. cbn [String.eqb Ascii.eqb Bool.eqb].
  destruct (first_unanswered stages_qualify (lead_data st)) as [[q |] | e];
    [reflexivity | | reflexivity].
  rewrite get_next_question_contact; reflexivity.
Qed.


Lemma all_answered_qualify (data : gmap string value) :
  all_answered stages_qualify data -> Forall (present data) qualify_fields.
Proof.
  intros H. unfold all_answered, stages_qualify in H.
  repeat match goal with
         | H : Forall _ (_ :: _) |- _ => inversion H; clear H; subst
         | H : exists _, _ /\ _ |- _ => destruct H as (? & [= <-] & ?)
         end.
  repeat constructor; assumption.
Qed.

Lemma all_answered_contact (data : gmap string value) :
  all_answered stages_contact data -> Forall (present data) contact_fields.
Proof.
  intros H. unfold all_answered, stages_contact in H.
  repeat match goal with
         | H : Forall _ (_ :: _) |- _ => inversion H; clear H; subst
         | H : exists _, _ /\ _ |- _ => destruct H as (? & [= <-] & ?)
         end.
  repeat constructor; assumption.
Qed.

(** A missing field of a stage makes the loop over its questions return one. *)
Lemma missing_qualify (data : gmap string value) :
  Exists (fun f => data !! f = None) qualify_fields ->
  exists q, first_unanswered stages_qualify data = Return (Some q).
Proof.
  intros H. apply first_unanswered_missing; [apply stages_have_fields |].
  unfold qualify_fields in H. rewrite !Exists_cons, Exists_nil in H.
  destruct H as [H | [H | [H | []]]];
    eexists _, _; (split; [| split; [| exact H]]);
    [ left | | right; left | | right; right; left | ]; reflexivity.
Qed.

Lemma missing_contact (data : gmap string value) :
  Exists (fun f => data !! f = None) contact_fields ->
  exists q, first_unanswered stages_contact data = Return (Some q).
Proof.
  intros H. apply first_unanswered_missing; [apply stages_have_fields |].
  unfold contact_fields in H. rewrite !Exists_cons, Exists_nil in H.
  destruct H as [H | [H | [H | []]]];
    eexists _, _; (split; [| split; [| exact H]]);
    [ left | | right; left | | right; right; left | ]; reflexivity.
Qed.

(** [get_next_question] never writes to the lead record. *)
Lemma get_next_question_lead_data (st : session_state) :
  lead_data (snd (get_next_question st)) = lead_data st.
Proof.
  funelim (get_next_question st); try reflexivity.
  - repeat match goal with
           | |- context [if ?b then _ else _] => destruct b
           | |- context [match ?m with Return _ => _ | Raise _ => _ end] => destruct m
           | |- context [match ?o with Some _ => _ | None => _ end] => destruct o
           end; reflexivity.
  - match goal with IH : lead_data _ = _ |- _ => rewrite IH end. reflexivity.
Qed.

(** C3. [get_next_question] leaves stage "qualify" only when budget,
    timeline and interest_level are all present (for "contact", or for
    "schedule" when name, email and phone are present too), and leaves stage
    "contact", for "schedule", only when name, email and phone are all
    present; when one of the stage's fields is missing the stage is left
    unchanged. *)
Theorem stage_advances_only_when_answered (st : session_state) :
  let st' := snd (get_next_question st) in
  (conversation_stage st = "qualify" ->
     (conversation_stage st' <> "qualify" ->
        Forall (present (lead_data st)) qualify_fields
        /\ (conversation_stage st' = "contact"
            \/ conversation_stage st' = "schedule"
               /\ Forall (present (lead_data st)) contact_fields))
     /\ (Exists (fun f => lead_data st !! f = None) qualify_fields ->
           conversation_stage st' = "qualify"))
  /\ (conversation_stage st = "contact" ->
        (conversation_stage st' <> "contact" ->
           Forall (present (lead_data st)) contact_fields
           /\ conversation_stage st' = "schedule")
        /\ (Exists (fun f => lead_data st !! f = None) contact_fields ->
              conversation_stage st' = "contact")).
Proof.
  split; intros Hstage.
  - rewrite (get_next_question_qualify st Hstage). split.
    + destruct (first_unanswered stages_qualify (lead_data st)) as [[q |] | e] eqn:Hq;
        cbn [snd]; try (intros Hne; contradiction).
      intros _. split; [apply all_answered_qualify, first_unanswered_None, Hq |].
      destruct (first_unanswered stages_contact (lead_data st)) as [[q |] | e] eqn:Hc;
        cbn [snd conversation_stage set_conversation_stage];
        [left; reflexivity | | left; reflexivity].
      right. split; [reflexivity |].
      apply all_answered_contact, first_unanswered_None, Hc.
    + intros Hmiss. destruct (missing_qualify _ Hmiss) as [q ->]. exact Hstage.
  - rewrite (get_next_question_contact st Hstage). split.
    + destruct (first_unanswered stages_contact (lead_data st)) as [[q |] | e] eqn:Hc;
        cbn [snd]; try (intros Hne; contradiction).
      intros _. split; [| reflexivity].
      apply all_answered_contact, first_unanswered_None, Hc.
    + intros Hmiss. destruct (missing_contact _ Hmiss) as [q ->]. exact Hstage.
Qed.

(** C6. A question that [get_next_question] returns for a field is for a
    field that is not present in the lead record. *)
Theorem next_question_field_unanswered (st : session_state) (f : string) :
  q_field (fst (get_next_question st)) = Some f ->
  lead_data st !! f = None.
Proof.
  funelim (get_next_question st); cbn [fst].
  - discriminate.
  - destruct (conversation_stage st =? "contact")%string.
    + destruct (first_unanswered stages_contact (lead_data st)) as [[q |] | e'] eqn:Hc;
        cbn [fst]; try discriminate.
      intros Hf. destruct (first_unanswered_Some _ _ _ Hc) as (_ & f' & Hf' & Hm).
      congruence.
    + destruct (conversation_stage st =? "schedule")%string; discriminate.
  - intros Hf.
    match goal with
    | H : first_unanswered _ _ = Return (Some _) |- _ =>
        destruct (first_unanswered_Some _ _ _ H) as (_ & f' & Hf' & Hm)
    end.
    congruence.
  - intros Hf.
    match goal with IH : forall f, _ -> _ = None |- _ => exact (IH f Hf) end.
  - discriminate.
Qed.

(** C9. At a stage other than greeting, qualify, contact and schedule,
    [get_next_question] returns the fallback question and leaves the session
    as it was. *)
Theorem unknown_stage_falls_back (st : session_state) :
  conversation_stage st <> "greeting" ->
  conversation_stage st <> "qualify" ->
  conversation_stage st <> "contact" ->
  conversation_stage st <> "schedule" ->
  get_next_question st
  = ({| q_question := "How can I help you today?"; q_field := None;
        q_type := "fallback" |}, st).
Proof.
  intros Hg Hq Hc Hs. rewrite get_next_question_eq.
  apply String.eqb_neq in Hg, Hq, Hc, Hs. rewrite Hg, Hq, Hc, Hs. reflexivity.
Qed.

(** ** The script body *)

Lemma forallb_contains (data : gmap string value) (fields : list string) :
  forallb (contains data) fields = true <-> Forall (present data) fields.
Proof.
  rewrite forallb_forall, Forall_forall. unfold present.
  split; intros H f Hf.
  - apply contains_true, H, list_elem_of_In, Hf.
  - apply contains_true, H, list_elem_of_In, Hf.
Qed.

(** The stage [get_next_question] leaves is the one it found, "contact" or
    "schedule". *)
Lemma get_next_question_stage (st : session_state) :
  let stage' := conversation_stage (snd (get_next_question st)) in
  stage' = conversation_stage st \/ stage' = "contact" \/ stage' = "schedule".
Proof.
  funelim (get_next_question st); cbn zeta; cbn [snd].
  - left; reflexivity.
  - repeat match goal with
           | |- context [if ?b then _ else _] => destruct b
           | |- context [match ?m with Return _ => _ | Raise _ => _ end] => destruct m
           | |- context [match ?o with Some _ => _ | None => _ end] => destruct o
           end; cbn [snd conversation_stage set_conversation_stage]; tauto.
  - left; reflexivity.
  - match goal with
    | IH : _ \/ _ |- _ =>
        cbn [conversation_stage set_conversation_stage] in IH;
        destruct IH as [-> | IH]; tauto
    end.
  - left; reflexivity.
Qed.


Section ScriptTheorems.

Context {py : interpreter}.


Lemma score_record_is_complete (io : page) (data : gmap string value) :
  Forall (present data) required_fields ->
  score_record_complete (score_record io (qualify_lead data) data).
Proof.
  intros H. unfold score_record_complete, score_record. split; [| split].
  - rewrite Forall_forall in H |- *. intros f Hin. specialize (H f Hin).
    unfold present in *. unfold required_fields in Hin.
    repeat (apply elem_of_cons in Hin as [-> | Hin];
            [rewrite !lookup_insert_ne by discriminate; exact H |]).
    apply elem_of_nil in Hin. destruct Hin.
  - eexists. rewrite lookup_insert_ne by discriminate. apply lookup_insert_eq.
  - eexists. apply lookup_insert_eq.
Qed.

Lemma final_conversion_spec (io : page) (st : session_state) :
  (Forall (present (lead_data st)) required_fields
   /\ final_conversion io st
      = track_analytics (now io) "conversion" ∅
          (append_lead_score (score_record io (qualify_lead (lead_data st)) (lead_data st))
             (set_conversation_stage "completed" st)))
  \/ (~ Forall (present (lead_data st)) required_fields
      /\ final_conversion io st = st).
Proof.
  unfold final_conversion.
  destruct (forallb (contains (lead_data st)) required_fields) eqn:H.
  - left. split; [apply forallb_contains, H | reflexivity].
  - right. split; [| reflexivity].
    intros Hall. apply forallb_contains in Hall. congruence.
Qed.

(** The handler never sets the stage to "completed" and never touches the
    score log. *)
Lemma conversation_handler_spec (io : page) (st st' : session_state) :
  conversation_handler io st = Continue st' \/ conversation_handler io st = Rerun st' ->
  lead_scores st' = lead_scores st
  /\ (conversation_stage st' = "completed" ->
      conversation_stage st = "completed" /\ conversation_handler io st = Continue st).
Proof.
  unfold conversation_handler.
  destruct (conversation_stage st =? "completed")%string eqn:Hc; cbn [negb].
  - intros [[= <-] | [=]]. apply String.eqb_eq in Hc. auto.
  - apply String.eqb_neq in Hc.
    pose proof (get_next_question_stage st) as Hs. cbn zeta in Hs.
    assert (Hl : lead_scores (snd (get_next_question st)) = lead_scores st).
    { clear. funelim (get_next_question st); try reflexivity.
      - repeat match goal with
               | |- context [if ?b then _ else _] => destruct b
               | |- context [match ?m with Return _ => _ | Raise _ => _ end] => destruct m
               | |- context [match ?o with Some _ => _ | None => _ end] => destruct o
               end; reflexivity.
      - match goal with IH : lead_scores _ = _ |- _ => rewrite IH end. reflexivity. }
    destruct (get_next_question st) as [q st1]. cbn [snd] in Hs, Hl.
    assert (Hne : conversation_stage st1 <> "completed").
    { destruct Hs as [-> | [-> | ->]]; [exact Hc | discriminate | discriminate]. }
    intros H.
    repeat match type of H with
           | context [if ?b then _ else _] => destruct b
           | context [match ?o with Some _ => _ | None => _ end] => destruct o
           | context [match ?l with [] => _ | _ :: _ => _ end] => destruct l
           end;
      destruct H as [[= <-] | [= <-]];
      cbn [lead_scores conversation_stage set_conversation_stage track_analytics set_lead_data];
      (split; [exact Hl | intros; try discriminate; contradiction]).
Qed.

(** C7. A run of the script sets the stage to "completed" only when the
    six required fields are present, and the score log changes only by the
    reset or by the record of a completion, which holds the lead record
    with its category and timestamp; so in every session state the script
    reaches, "completed" goes with the six fields and every score record is
    complete. *)
Theorem completion_requires_all_fields :
  (forall (io : page) (st : session_state),
      let st' := main io st in
      (conversation_stage st <> "completed" -> conversation_stage st' = "completed" ->
       Forall (present (lead_data st')) required_fields)
      /\ (lead_scores st' = lead_scores st
          \/ st' = initial_state
          \/ (conversation_stage st' = "completed"
              /\ Forall (present (lead_data st')) required_fields
              /\ lead_scores st'
                 = lead_scores st
                   ++ [score_record io (qualify_lead (lead_data st')) (lead_data st')])))
  /\ (forall st : session_state,
        reachable st ->
        (conversation_stage st = "completed" ->
         Forall (present (lead_data st)) required_fields)
        /\ Forall score_record_complete (lead_scores st)).
Proof.
  assert (Hstep : forall io st,
             let st' := main io st in
             (st' = initial_state
              \/ lead_scores st' = lead_scores st
                 /\ (conversation_stage st' = "completed" ->
                     conversation_stage st = "completed" /\ lead_data st' = lead_data st)
              \/ conversation_stage st' = "completed"
                 /\ Forall (present (lead_data st')) required_fields
                 /\ lead_scores st'
                    = lead_scores st
                      ++ [score_record io (qualify_lead (lead_data st')) (lead_data st')])).
  { intros io st. cbn zeta. unfold main.
    destruct (conversation_handler io st) as [st1 | st1] eqn:Hh.
    - destruct (conversation_handler_spec io st st1 (or_introl Hh)) as [Hl Hc].
      destruct (reset_clicked io); [left; reflexivity |].
      destruct (final_conversion_spec io st1) as [[Hall ->] | [Hno ->]].
      + right; right.
        cbn [conversation_stage lead_data lead_scores track_analytics
               append_lead_score set_conversation_stage].
        rewrite Hl. auto.
      + right; left. split; [exact Hl |].
        intros Hcomp. destruct (Hc Hcomp) as [Hst Hcont].
        rewrite Hcont in Hh. injection Hh as <-. auto.
    - destruct (conversation_handler_spec io st st1 (or_intror Hh)) as [Hl Hc].
      right; left. split; [exact Hl |].
      intros Hcomp. destruct (Hc Hcomp) as [_ Hcont]. congruence. }
  split.
  - intros io st st'. destruct (Hstep io st) as [H | [[Hl Hc] | (Hc & Hall & Hl)]];
      fold st' in H || fold st' in Hl, Hc || idtac.
    + split; [| auto]. intros _ Hcomp. rewrite H in Hcomp. discriminate.
    + split; [| auto]. intros Hne Hcomp. destruct (Hc Hcomp) as [Hst _]. contradiction.
    + split; [auto |]. right; right. auto.
  - induction 1 as [| io st Hr [IHc IHl]].
    + split; [discriminate | constructor].
    + destruct (Hstep io st) as [H | [[Hl Hc] | (Hc & Hall & Hl)]].
      * rewrite H. split; [discriminate | constructor].
      * rewrite Hl. split; [| exact IHl].
        intros Hcomp. destruct (Hc Hcomp) as [Hst ->]. exact (IHc Hst).
      * rewrite Hl. split; [intros _; exact Hall |].
        apply Forall_app. split; [exact IHl |].
        constructor; [| constructor]. apply score_record_is_complete, Hall.
Qed.

End ScriptTheorems.

(** ** The field validator *)

Section MatcherFacts.

Context {py : interpreter}.


(** A repetition of a character class, read off the subject: it takes a
    prefix of [count'] class members, within the bounds, and the rest
    goes to the continuation. *)
Lemma iterate_class_elim (items : list class_item) (lo : nat) (hi : option nat)
    (k : bool -> pystr -> bool) (fuel count : nat) (bos : bool) (s : pystr) :
  iterate (rmatch (In_class items)) lo hi k fuel count bos s = true ->
  exists pre rest,
    s = pre ++ rest
    /\ Forall (fun c => in_class items c = true) pre
    /\ (lo <= count + length pre)%nat
    /\ k (match pre with [] => bos | _ => false end) rest = true.
Proof.
  revert count bos s.
  induction fuel as [| fuel IH]; intros count bos s; simpl; [discriminate |].
  intros H. apply orb_true_iff in H as [H | H].
  - apply andb_true_iff in H as [_ H].
    destruct s as [| c s']; [discriminate |].
    apply andb_true_iff in H as [Hc H]. apply andb_true_iff in H as [_ H].
    destruct (IH _ _ _ H) as (pre & rest & -> & Hpre & Hlo & Hk).
    exists (c :: pre), rest. split; [reflexivity |].
    split; [constructor; assumption |].
    split; [simpl; lia |].
    destruct pre; exact Hk.
  - apply andb_true_iff in H as [Hlo Hk]. apply Nat.leb_le in Hlo.
    exists [], s. split; [reflexivity |]. split; [constructor |].
    split; [simpl; lia | exact Hk].
Qed.

(** The fuel the matcher gives a repetition is enough: every such split
    of the subject is found. *)
Lemma iterate_class_intro (items : list class_item) (lo : nat) (hi : option nat)
    (k : bool -> pystr -> bool) (pre rest : pystr) :
  forall (fuel count : nat) (bos : bool),
    Forall (fun c => in_class items c = true) pre ->
    (lo <= count + length pre)%nat ->
    match hi with Some h => (count + length pre <= h)%nat | None => True end ->
    (length pre < fuel)%nat ->
    k (match pre with [] => bos | _ => false end) rest = true ->
    iterate (rmatch (In_class items)) lo hi k fuel count bos (pre ++ rest) = true.
Proof.
  induction pre as [| c pre IH]; intros fuel count bos Hpre Hlo Hhi Hfuel Hk.
  - destruct fuel as [| fuel]; [simpl in Hfuel; lia |]. simpl.
    apply orb_true_iff. right. apply andb_true_iff. split; [| exact Hk].
    apply Nat.leb_le. simpl in Hlo. lia.
  - destruct fuel as [| fuel]; [simpl in Hfuel; lia |].
    inversion Hpre as [| ? ? Hc Hpre']; subst.
    cbn [iterate app rmatch]. apply orb_true_iff. left.
    apply andb_true_iff. split.
    { destruct hi as [h |]; [| reflexivity]. apply Nat.ltb_lt. simpl in Hhi. lia. }
    fold (in_class items c). rewrite Hc. cbn [andb].
    apply andb_true_iff. split.
    { apply orb_true_iff. left. apply Nat.ltb_lt. simpl. lia. }
    apply IH; try assumption.
    + simpl in Hlo. lia.
    + destruct hi as [h |]; [simpl in Hhi; lia | exact I].
    + simpl in Hfuel. lia.
    + destruct pre; exact Hk.
Qed.

(** The subjects [$] accepts. *)
Lemma at_end_true (bos : bool) (s : pystr) :
  rmatch At_end bos s (fun _ _ => true) = true <-> s = [] \/ s = [Chr.newline].
Proof.
  simpl. destruct s as [| c [| c' s']].
  - split; auto.
  - rewrite andb_true_r, N.eqb_eq. split.
    + intros ->. right. reflexivity.
    + intros [H | H]; [discriminate | injection H as ->; reflexivity].
  - split; [discriminate | intros [H | H]; discriminate].
Qed.

(** The pattern of a number accepts the non-empty runs of decimal digits,
    with or without a final newline. *)
Lemma number_pattern_accepts (s : pystr) :
  validate_response s "number" = true <->
  exists ds,
    ds <> [] /\ Forall (fun c => Py_UNICODE_ISDECIMAL c = true) ds
    /\ (s = ds \/ s = ds ++ [Chr.newline]).
Proof.
  unfold validate_response.
  change (validation_rules !! "number")
    with (Some {| pattern := (At_beginning +++ plus (In_class [Category_digit]) +++ At_end)%re;
                  message := "Please enter a valid number" |}).
  cbn [pattern]. rewrite negb_if. unfold re_match.
  change (rmatch _ true s _)
    with (iterate (rmatch (In_class [Category_digit])) 1 None
            (fun b s' => rmatch At_end b s' (fun _ _ => true))
            (S (length s + 1)) 0 true s).
  assert (Hcls : forall c, in_class [Category_digit] c = Py_UNICODE_ISDECIMAL c).
  { intros c. unfold in_class. simpl. apply orb_false_r. }
  split.
  - intros H. destruct (iterate _ _ _ _ _ _ _ _) eqn:Hit; [| discriminate].
    apply iterate_class_elim in Hit as (pre & rest & -> & Hpre & Hlo & Hk).
    apply at_end_true in Hk. exists pre. split; [| split].
    + destruct pre; [simpl in Hlo; lia | discriminate].
    + eapply Forall_impl; [exact Hpre |]. intros c Hc. rewrite <- Hcls. exact Hc.
    + destruct Hk as [-> | ->]; [left; apply app_nil_r | right; reflexivity].
  - intros (ds & Hne & Hds & Hs).
    assert (Hit : forall rest, rest = [] \/ rest = [Chr.newline] ->
              iterate (rmatch (In_class [Category_digit])) 1 None
                (fun b s' => rmatch At_end b s' (fun _ _ => true))
                (S (length (ds ++ rest) + 1)) 0 true (ds ++ rest) = true).
    { intros rest Hrest. apply iterate_class_intro.
      - eapply Forall_impl; [exact Hds |]. intros c Hc. rewrite Hcls. exact Hc.
      - destruct ds; [contradiction | simpl; lia].
      - exact I.
      - rewrite length_app. lia.
      - apply at_end_true. exact Hrest. }
    destruct Hs as [-> | ->].
    + specialize (Hit [] (or_introl eq_refl)). rewrite app_nil_r in Hit.
      rewrite Hit. reflexivity.
    + rewrite Hit by auto. reflexivity.
Qed.

(** C8. The scale validator accepts each of "1" to "10" and rejects "0"
    and "11". *)
Theorem scale_accepts_1_to_10 :
  Forall (fun s => validate_response (u s) "scale" = true)
    ["1"; "2"; "3"; "4"; "5"; "6"; "7"; "8"; "9"; "10"]
  /\ validate_response (u "0") "scale" = false
  /\ validate_response (u "11") "scale" = false.
Proof.
  split; [| split]; repeat constructor; vm_compute; reflexivity.
Qed.

(** C2, as the pattern has it. The phone validator accepts "+14155551234",
    and "14155551234" without the plus sign; it accepts "155551234" as
    well, since the plus sign is optional and nothing marks a country
    code. *)
Theorem phone_accepts_with_or_without_plus :
  validate_response (u "+14155551234") "phone" = true
  /\ validate_response (u "14155551234") "phone" = true
  /\ validate_response (u "155551234") "phone" = true.
Proof.
  split; [| split]; vm_compute; reflexivity.
Qed.

End MatcherFacts.

(** C2 fails as stated: "155551234" is not rejected. *)
Lemma phone_155551234_not_rejected :
  validate_response (py := cpython_3_11) (u "155551234") "phone" <> false.
Proof. vm_compute. discriminate. Qed.

(** ** Text that the number and scale patterns accept, as [int] and [float] read it *)

Section ParseFacts.

Context {py : interpreter}.


Lemma todecimal_lt_10 (c d : N) : Py_UNICODE_TODECIMAL c = Some d -> (d < 10)%N.
Proof.
  unfold Py_UNICODE_TODECIMAL, is_ascii_digit, Chr.zero.
  destruct (c <? 128)%N.
  - destruct ((48 <=? c) && (c <=? 57))%N eqn:H; [| discriminate].
    intros [= <-]. apply andb_true_iff in H as [H1 H2].
    apply N.leb_le in H1, H2. lia.
  - destruct (find _ _) as [z |] eqn:Hf; [| discriminate].
    intros [= <-]. apply find_some in Hf as [_ H].
    apply andb_true_iff in H as [H1 H2].
    apply N.leb_le in H1. apply N.ltb_lt in H2. lia.
Qed.

Lemma decimal_not_space (c : N) :
  decimals_are_not_spaces = true ->
  (128 <= c)%N -> Py_UNICODE_ISDECIMAL c = true -> Py_UNICODE_ISSPACE c = false.
Proof.
  intros Hwf Hc. unfold Py_UNICODE_ISDECIMAL, Py_UNICODE_TODECIMAL.
  apply N.ltb_ge in Hc. rewrite Hc.
  destruct (find _ _) as [z |] eqn:Hf; [intros _ | discriminate].
  apply find_some in Hf as [Hin H].
  apply andb_true_iff in H as [H1 H2]. apply N.leb_le in H1. apply N.ltb_lt in H2.
  unfold decimals_are_not_spaces in Hwf. rewrite forallb_forall in Hwf.
  specialize (Hwf z Hin). rewrite forallb_forall in Hwf.
  assert (Hd : In (c - z)%N [0; 1; 2; 3; 4; 5; 6; 7; 8; 9]%N).
  { assert (Hlt : (c - z < 10)%N) by lia. revert Hlt.
    generalize (c - z)%N. intros d Hd. simpl.
    assert (d = 0 \/ d = 1 \/ d = 2 \/ d = 3 \/ d = 4 \/ d = 5 \/ d = 6 \/ d = 7
            \/ d = 8 \/ d = 9)%N by lia.
    intuition auto. }
  specialize (Hwf _ Hd). apply negb_true_iff in Hwf.
  replace (z + (c - z))%N with c in Hwf by lia. exact Hwf.
Qed.

Lemma ascii_digit_of_is_digit (c : N) :
  Py_UNICODE_ISDECIMAL c = true ->
  is_ascii_digit (ascii_digit_of c) = true
  /\ Z.of_N (ascii_digit_of c - Chr.zero) = digit_value c.
Proof.
  unfold Py_UNICODE_ISDECIMAL, ascii_digit_of, digit_value.
  destruct (Py_UNICODE_TODECIMAL c) as [d |] eqn:Hd; [intros _ | discriminate].
  apply todecimal_lt_10 in Hd. cbn [default from_option id].
  unfold is_ascii_digit, Chr.zero. split.
  - apply andb_true_iff. split; apply N.leb_le; lia.
  - f_equal. lia.
Qed.

Lemma ascii_decimal (c : N) :
  (c < 128)%N -> Py_UNICODE_ISDECIMAL c = true -> ascii_digit_of c = c.
Proof.
  intros Hc. unfold Py_UNICODE_ISDECIMAL, ascii_digit_of, Py_UNICODE_TODECIMAL.
  apply N.ltb_lt in Hc. rewrite Hc. unfold is_ascii_digit, Chr.zero.
  destruct ((48 <=? c) && (c <=? 57))%N eqn:H; [intros _ | discriminate].
  apply andb_true_iff in H as [H1 H2]. apply N.leb_le in H1, H2.
  cbn [default from_option id]. lia.
Qed.

Lemma not_decimal_127 : Py_UNICODE_ISDECIMAL 127 = false.
Proof. reflexivity. Qed.

(** A run of decimal digits, with or without a final newline, becomes the
    run of their ASCII digits. *)
Lemma transform_digits (ds rest : pystr) :
  decimals_are_not_spaces = true ->
  Forall (fun c => Py_UNICODE_ISDECIMAL c = true) ds ->
  rest = [] \/ rest = [Chr.newline] ->
  PyUnicode_TransformDecimalAndSpaceToASCII (ds ++ rest) = map ascii_digit_of ds ++ rest.
Proof.
  intros Hwf Hds Hrest. unfold PyUnicode_TransformDecimalAndSpaceToASCII.
  destruct (forallb _ (ds ++ rest)) eqn:Hascii.
  - f_equal. rewrite forallb_app in Hascii. apply andb_true_iff in Hascii as [Hascii _].
    induction Hds as [| c ds Hc _ IH]; [reflexivity |].
    simpl in Hascii. apply andb_true_iff in Hascii as [Hc128 Hascii].
    apply N.ltb_lt in Hc128. simpl. rewrite (ascii_decimal c Hc128 Hc), <- IH by assumption.
    reflexivity.
  - clear Hascii. induction Hds as [| c ds Hc _ IH].
    + destruct Hrest as [-> | ->]; reflexivity.
    + cbn [app map transform_decimal_and_space]. rewrite IH.
      destruct (c <? 127)%N eqn:H127.
      * apply N.ltb_lt in H127. rewrite ascii_decimal by (assumption || lia). reflexivity.
      * apply N.ltb_ge in H127.
        assert (H128 : (128 <= c)%N).
        { destruct (N.eq_dec c 127%N) as [-> | Hne]; [| lia].
          rewrite not_decimal_127 in Hc. discriminate. }
        rewrite (decimal_not_space c Hwf H128 Hc).
        unfold Py_UNICODE_ISDECIMAL in Hc. unfold ascii_digit_of.
        destruct (Py_UNICODE_TODECIMAL c); [reflexivity | discriminate].
Qed.

(** *** Runs of ASCII digits *)


Lemma ascii_digit_bounds (c : N) : is_ascii_digit c = true <-> (48 <= c <= 57)%N.
Proof.
  unfold is_ascii_digit. rewrite andb_true_iff, !N.leb_le. reflexivity.
Qed.

Ltac digit_facts :=
  repeat match goal with
         | H : is_ascii_digit _ = true |- _ => apply ascii_digit_bounds in H
         end;
  unfold Py_ISSPACE, ci_eq, Chr.underscore, Chr.minus, Chr.plus, Chr.dot, Chr.newline;
  repeat match goal with
         | |- context [(?a =? ?b)%N] =>
             let E := fresh "E" in
             destruct (a =? b)%N eqn:E;
             [apply N.eqb_eq in E; try lia | clear E]
         | |- context [(?a <=? ?b)%N] =>
             let E := fresh "E" in
             destruct (a <=? b)%N eqn:E;
             [apply N.leb_le in E | apply N.leb_gt in E]; try lia
         end;
  try reflexivity.

Lemma digit_not_space (c : N) : is_ascii_digit c = true -> Py_ISSPACE c = false.
Proof. intros H. digit_facts. Qed.

Lemma digit_not_sign (c : N) (s : list N) :
  is_ascii_digit c = true -> parse_sign (c :: s) = (false, c :: s).
Proof. intros H. unfold parse_sign. digit_facts. Qed.

Lemma digit_not_underscore (c : N) :
  is_ascii_digit c = true -> (c =? Chr.underscore)%N = false.
Proof. intros H. digit_facts. Qed.

Lemma long_scan_digits (asciis rest : list N) :
  Forall (fun c => is_ascii_digit c = true) asciis ->
  rest = [] \/ rest = [Chr.newline] ->
  forall prev, (prev =? Chr.underscore)%N = false ->
  long_scan prev (asciis ++ rest) = Some (map ascii_value asciis, rest).
Proof.
  intros Hds Hrest. induction Hds as [| c asciis Hc _ IH]; intros prev Hprev.
  - destruct Hrest as [-> | ->]; simpl; rewrite Hprev; reflexivity.
  - cbn [app long_scan map]. rewrite Hc.
    rewrite (IH c (digit_not_underscore c Hc)). reflexivity.
Qed.


Lemma PyLong_FromString_digits (asciis rest : list N) :
  asciis <> [] ->
  Forall (fun c => is_ascii_digit c = true) asciis ->
  rest = [] \/ rest = [Chr.newline] ->
  PyLong_FromString (asciis ++ rest)
  = if exceeds_int_max_str_digits (Z.of_nat (length asciis)) then Raise ValueError
    else Return (digits_value (map ascii_value asciis)).
Proof.
  intros Hne Hds Hrest. unfold PyLong_FromString.
  destruct asciis as [| c asciis]; [contradiction |].
  inversion Hds as [| ? ? Hc Hds']; subst.
  cbn [app lstrip]. rewrite (digit_not_space c Hc), (digit_not_sign c _ Hc).
  rewrite (digit_not_underscore c Hc).
  change (c :: asciis ++ rest) with ((c :: asciis) ++ rest).
  rewrite (long_scan_digits (c :: asciis) rest Hds Hrest) by reflexivity.
  cbn [map]. assert (Hsp : forallb Py_ISSPACE rest = true).
  { destruct Hrest as [-> | ->]; reflexivity. }
  rewrite Hsp. cbn [negb length]. rewrite length_map.
  reflexivity.
Qed.

Lemma span_digits_all (asciis : list N) :
  Forall (fun c => is_ascii_digit c = true) asciis ->
  span_digits asciis = (map ascii_value asciis, []).
Proof.
  induction 1 as [| c asciis Hc _ IH]; [reflexivity |].
  simpl. rewrite Hc, IH. reflexivity.
Qed.

Lemma rstrip_digits (asciis rest : list N) :
  asciis <> [] ->
  Forall (fun c => is_ascii_digit c = true) asciis ->
  rest = [] \/ rest = [Chr.newline] ->
  rstrip (asciis ++ rest) = asciis.
Proof.
  intros Hne Hds Hrest. induction Hds as [| c asciis Hc Hds IH]; [contradiction |].
  cbn [app rstrip]. destruct asciis as [| c' asciis].
  - rewrite (digit_not_space c Hc).
    destruct Hrest as [-> | ->]; reflexivity.
  - rewrite IH by discriminate. reflexivity.
Qed.

Lemma no_underscore_in_digits (asciis : list N) :
  Forall (fun c => is_ascii_digit c = true) asciis ->
  existsb (fun c => c =? Chr.underscore)%N asciis = false.
Proof.
  induction 1 as [| c asciis Hc _ IH]; [reflexivity |].
  simpl. rewrite (digit_not_underscore c Hc), IH. reflexivity.
Qed.

Lemma digits_not_inf_or_nan (asciis : list N) :
  Forall (fun c => is_ascii_digit c = true) asciis ->
  Py_parse_inf_or_nan asciis = None.
Proof.
  intros Hds. unfold Py_parse_inf_or_nan.
  destruct asciis as [| c1 asciis]; [reflexivity |].
  inversion Hds as [| ? ? Hc Hds']; subst.
  rewrite (digit_not_sign c1 _ Hc).
  destruct asciis as [| c2 [| c3 r]]; try reflexivity.
  assert (H1 : ci_eq c1 105 = false) by (clear -Hc; digit_facts).
  assert (H2 : ci_eq c1 110 = false) by (clear -Hc; digit_facts).
  rewrite H1, H2. reflexivity.
Qed.

Lemma PyFloat_FromString_digits (asciis rest : list N) :
  asciis <> [] ->
  Forall (fun c => is_ascii_digit c = true) asciis ->
  rest = [] \/ rest = [Chr.newline] ->
  float_from_string_inner (rstrip (lstrip (asciis ++ rest)))
  = if exceeds_strtod_max_digits (length (drop_zeros (map ascii_value asciis))) 0
    then Raise ValueError
    else Return (decimal_to_float false (digits_value (map ascii_value asciis)) 0).
Proof.
  intros Hne Hds Hrest.
  assert (Hl : lstrip (asciis ++ rest) = asciis ++ rest).
  { destruct asciis as [| c asciis]; [contradiction |].
    inversion Hds; subst. cbn [app lstrip]. rewrite digit_not_space by assumption.
    reflexivity. }
  rewrite Hl, rstrip_digits by assumption.
  unfold float_from_string_inner. rewrite digits_not_inf_or_nan by assumption.
  unfold Py_dg_strtod.
  destruct asciis as [| c asciis]; [contradiction |].
  inversion Hds as [| ? ? Hc Hds']; subst.
  rewrite (digit_not_sign c _ Hc), (span_digits_all _ Hds).
  rewrite app_nil_r. cbn [map length].
  destruct (exceeds_strtod_max_digits _ 0); reflexivity.
Qed.

(** *** Text accepted as a number *)


Lemma decimal_digits_run (ds rest : pystr) :
  Forall (fun c => Py_UNICODE_ISDECIMAL c = true) ds ->
  rest = [] \/ rest = [Chr.newline] ->
  decimal_digits (ds ++ rest) = ds.
Proof.
  intros Hds Hrest. unfold decimal_digits. rewrite List.filter_app.
  replace (List.filter Py_UNICODE_ISDECIMAL rest) with (@nil N)
    by (destruct Hrest as [-> | ->]; reflexivity).
  rewrite app_nil_r. induction Hds as [| c ds Hc _ IH]; [reflexivity |].
  simpl. rewrite Hc, IH. reflexivity.
Qed.

Lemma ascii_digits_of_run (ds : pystr) :
  Forall (fun c => Py_UNICODE_ISDECIMAL c = true) ds ->
  Forall (fun c => is_ascii_digit c = true) (map ascii_digit_of ds)
  /\ map ascii_value (map ascii_digit_of ds) = map digit_value ds.
Proof.
  induction 1 as [| c ds Hc _ [IH1 IH2]]; [split; [constructor | reflexivity] |].
  destruct (ascii_digit_of_is_digit c Hc) as [H1 H2].
  split; [constructor; assumption |].
  cbn [map]. unfold ascii_value at 1. rewrite H2, IH2. reflexivity.
Qed.

(** What [float] and [int] make of a text that the number pattern
    accepts: [float] raises exactly when the text has more digits than
    [_Py_dg_strtod] reads, [int] exactly when it has more digits than the
    interpreter converts. *)
Lemma validated_number_parses (s : pystr) :
  decimals_are_not_spaces = true ->
  validate_response s "number" = true ->
  py_float (VStr s)
  = (if exceeds_strtod_max_digits (significant_digits s) 0 then Raise ValueError
     else Return (decimal_to_float false (number_value s) 0))
  /\ py_int (VStr s)
     = if exceeds_int_max_str_digits (Z.of_nat (digit_count s)) then Raise ValueError
       else Return (number_value s).
Proof.
  intros Hwf Hv. apply number_pattern_accepts in Hv as (ds & Hne & Hds & Hs).
  assert (Hshape : exists rest, (rest = [] \/ rest = [Chr.newline]) /\ s = ds ++ rest).
  { destruct Hs as [-> | ->]; [exists [] | exists [Chr.newline]];
      rewrite ?app_nil_r; auto. }
  destruct Hshape as (rest & Hrest & ->).
  destruct (ascii_digits_of_run ds Hds) as [Hascii Hval].
  assert (Hne' : map ascii_digit_of ds <> []) by (destruct ds; [contradiction | discriminate]).
  unfold number_value, digit_count, significant_digits.
  rewrite (decimal_digits_run ds rest Hds Hrest).
  cbn [py_float py_int]. unfold PyFloat_FromString, PyLong_FromUnicodeObject.
  rewrite (transform_digits ds rest Hwf Hds Hrest). split.
  - pose proof (PyFloat_FromString_digits _ rest Hne' Hascii Hrest) as Hf.
    destruct (rstrip (lstrip (map ascii_digit_of ds ++ rest))) as [| c r] eqn:Hr.
    { exfalso. revert Hr. destruct ds as [| c ds]; [contradiction |].
      inversion Hascii; subst. cbn [map app lstrip].
      rewrite digit_not_space by assumption.
      change (ascii_digit_of c :: map ascii_digit_of ds ++ rest)
        with (map ascii_digit_of (c :: ds) ++ rest).
      rewrite rstrip_digits by assumption. discriminate. }
    assert (Hr' : c :: r = map ascii_digit_of ds).
    { rewrite <- Hr. destruct ds as [| c0 ds]; [contradiction |].
      inversion Hascii; subst. cbn [map app lstrip].
      rewrite digit_not_space by assumption.
      change (ascii_digit_of c0 :: map ascii_digit_of ds ++ rest)
        with (map ascii_digit_of (c0 :: ds) ++ rest).
      apply rstrip_digits; assumption. }
    rewrite Hr', (no_underscore_in_digits _ Hascii), <- Hr', <- Hval. exact Hf.
  - rewrite (PyLong_FromString_digits _ rest Hne' Hascii Hrest).
    rewrite length_map, Hval. reflexivity.
Qed.

(** A text that the scale pattern accepts is read by [int] as a number
    from 1 to 10. *)
Lemma validated_scale_parses (s : pystr) :
  validate_response s "scale" = true ->
  exists n, 1 <= n <= 10 /\ py_int (VStr s) = Return n.
Proof.
  unfold validate_response.
  change (validation_rules !! "scale")
    with (Some {| pattern := (At_beginning
                              +++ Branch (In_class [range "1" "9"]) (chr "1" +++ chr "0")
                              +++ At_end)%re;
                  message := "Please enter a number between 1-10" |}).
  cbn [pattern]. rewrite negb_if. unfold re_match, chr, range.
  change (N_of_ascii "1") with 49%N. change (N_of_ascii "9") with 57%N.
  change (N_of_ascii "0") with 48%N.
  cbn [rmatch andb in_class existsb in_item orb].
  intros H.
  assert (Hcases : (exists c, (49 <= c <= 57)%N /\ (s = [c] \/ s = [c; Chr.newline]))
                   \/ s = [49; 48]%N \/ s = [49; 48; Chr.newline]%N).
  { destruct s as [| c1 [| c2 [| c3 [| c4 s]]]]; simpl in H;
      repeat match goal with
             | H : (if ?b then true else false) = true |- _ =>
                 destruct b eqn:?; [clear H | discriminate H]
             | H : _ && _ = true |- _ => apply andb_true_iff in H as [? ?]
             | H : _ || _ = true |- _ => apply orb_true_iff in H as [H | H]
             | H : false = true |- _ => discriminate H
             | H : (_ <=? _)%N = true |- _ => apply N.leb_le in H
             | H : (_ =? _)%N = true |- _ => apply N.eqb_eq in H
             end;
      subst;
      first [ discriminate
            | left; eexists; split; [| left; reflexivity]; lia
            | left; eexists; split; [| right; reflexivity]; lia
            | right; left; reflexivity
            | right; right; reflexivity ]. }
  destruct Hcases as [(c & Hc & Hs) | [-> | ->]].
  - assert (Hc' : (c = 49 \/ c = 50 \/ c = 51 \/ c = 52 \/ c = 53 \/ c = 54 \/ c = 55
                   \/ c = 56 \/ c = 57)%N) by lia.
    destruct Hs as [-> | ->];
      repeat (destruct Hc' as [-> | Hc']; [eexists; split; [| vm_compute; reflexivity]; lia |]);
      subst; eexists; (split; [| vm_compute; reflexivity]); lia.
  - exists 10. split; [lia | vm_compute; reflexivity].
  - exists 10. split; [lia | vm_compute; reflexivity].
Qed.

End ParseFacts.

(** ** The binary64 nearest to an [int] *)

Lemma digits2_pos_size (p : positive) : digits2_pos p = Pos.size p.
Proof. induction p; simpl; congruence. Qed.

Lemma digits2_bounds (p : positive) :
  2 ^ (Z.pos (digits2_pos p) - 1) <= Z.pos p < 2 ^ Z.pos (digits2_pos p).
Proof.
  rewrite digits2_pos_size.
  pose proof (Pos.size_gt p) as Hgt. pose proof (Pos.size_le p) as Hle.
  apply Pos2Z.pos_lt_pos in Hgt. apply Pos2Z.pos_le_pos in Hle.
  rewrite Pos2Z.inj_pow in Hgt, Hle. change (Z.pos 2) with 2 in Hle.
  rewrite (Pos2Z.inj_xO p) in Hle.
  split; [| exact Hgt].
  assert (Hp : 2 ^ Z.pos (Pos.size p) = 2 * 2 ^ (Z.pos (Pos.size p) - 1)).
  { rewrite <- Z.pow_succ_r by lia. f_equal. lia. }
  lia.
Qed.

Lemma iter_xO_value (k p : positive) :
  Z.pos (Pos.iter xO p k) = Z.pos p * 2 ^ Z.pos k
  /\ digits2_pos (Pos.iter xO p k) = (digits2_pos p + k)%positive.
Proof.
  induction k as [| k [IH1 IH2]] using Pos.peano_ind.
  - simpl. split; [lia | lia].
  - rewrite Pos.iter_succ. split.
    + rewrite Pos2Z.inj_xO, IH1, Pos2Z.inj_succ, Z.pow_succ_r by lia. lia.
    + simpl. rewrite IH2. lia.
Qed.

Lemma shr_1_m (r : shr_record) : 0 <= shr_m r -> shr_m (shr_1 r) = shr_m r / 2.
Proof.
  destruct r as [m rb sb]. simpl. intros Hm.
  destruct m as [| [p | p |] | p]; simpl; try reflexivity; try lia.
  - rewrite Pos2Z.inj_xI. rewrite Z.mul_comm, Z.div_add_l by lia. reflexivity.
  - rewrite Pos2Z.inj_xO. rewrite Z.mul_comm, Z.div_mul by lia. reflexivity.
Qed.

Lemma iter_shr_1_m (n : positive) (r : shr_record) :
  0 <= shr_m r -> shr_m (SpecFloat.iter_pos shr_1 n r) = shr_m r / 2 ^ Z.pos n.
Proof.
  revert r. induction n as [n IH | n IH |]; intros r Hr; simpl SpecFloat.iter_pos.
  - assert (H1 : 0 <= shr_m (shr_1 r)) by (rewrite shr_1_m by assumption; apply Z.div_pos; lia).
    assert (H2 : 0 <= shr_m (SpecFloat.iter_pos shr_1 n (shr_1 r)))
      by (rewrite IH by assumption; apply Z.div_pos; lia).
    rewrite IH, IH, shr_1_m by assumption.
    rewrite !Z.div_div by lia. f_equal.
    rewrite (Pos2Z.inj_xI n).
    replace (2 * Z.pos n + 1) with (1 + Z.pos n + Z.pos n) by lia.
    rewrite !Z.pow_add_r by lia. change (2 ^ 1) with 2. ring.
  - assert (H2 : 0 <= shr_m (SpecFloat.iter_pos shr_1 n r))
      by (rewrite IH by assumption; apply Z.div_pos; lia).
    rewrite IH, IH by assumption.
    rewrite !Z.div_div by lia. f_equal.
    rewrite (Pos2Z.inj_xO n).
    replace (2 * Z.pos n) with (Z.pos n + Z.pos n) by lia.
    rewrite !Z.pow_add_r by lia. change (2 ^ 1) with 2. ring.
  - rewrite shr_1_m by assumption. reflexivity.
Qed.

Lemma fexp_mid (e : Z) : -1021 <= e -> fexp prec emax e = e - 53.
Proof. unfold fexp, emin, prec, emax. lia. Qed.

Lemma binary_round_aux_canonical (mz : positive) (ez : Z) :
  Z.pos (digits2_pos mz) = 53 -> -1074 <= ez <= 971 ->
  binary_round_aux prec emax false (Z.pos mz) ez loc_Exact = S754_finite false mz ez.
Proof.
  intros Hd He. unfold binary_round_aux, shr_fexp. cbn [Zdigits2 shr_record_of_loc].
  rewrite Hd.
  assert (Hf : fexp prec emax (53 + ez) - ez = 0).
  { unfold fexp, emin, prec, emax. lia. }
  rewrite Hf. cbn [shr shr_m loc_of_shr_record round_nearest_even Zdigits2 shr_record_of_loc].
  rewrite Hd, Hf. cbn [shr shr_m].
  assert (Hle : (ez <=? emax - prec) = true) by (apply Z.leb_le; unfold emax, prec; lia).
  rewrite Hle. reflexivity.
Qed.

(** A positive [int] below 2^53 is its own float. *)
Lemma binary_round_small (p : positive) :
  Z.pos (digits2_pos p) <= 53 ->
  exists m e, binary_round prec emax false p 0 = S754_finite false m e
              /\ -52 <= e <= 0 /\ Z.pos m = Z.pos p * 2 ^ (- e).
Proof.
  intros Hd. unfold binary_round. cbn [Z.add].
  rewrite Z.add_0_r, fexp_mid by lia. unfold shl_align.
  destruct (Z.pos (digits2_pos p) - 53 - 0) as [| k | k] eqn:Hk; try lia.
  - rewrite binary_round_aux_canonical by lia.
    exists p, 0. split; [reflexivity |]. split; [lia |]. simpl. lia.
  - destruct (iter_xO_value k p) as [Hv Hdig].
    rewrite binary_round_aux_canonical by (rewrite ?Hdig; lia).
    eexists _, _. split; [reflexivity |]. split; [lia |].
    rewrite Hv. f_equal. f_equal. lia.
Qed.

Lemma round_nearest_even_bounds (m : Z) (l : location) :
  m <= round_nearest_even m l <= m + 1.
Proof.
  destruct l as [| []]; simpl; try lia. destruct (Z.even m); lia.
Qed.

Lemma Zdigits2_bounds (m : Z) :
  0 < m -> 2 ^ (Zdigits2 m - 1) <= m < 2 ^ Zdigits2 m.
Proof.
  destruct m as [| p | p]; try lia. intros _. apply digits2_bounds.
Qed.

(** An integer from 2^53 on rounds to a float of at least 2^53, or to
    infinity. *)
Lemma binary_round_large (p : positive) :
  53 < Z.pos (digits2_pos p) ->
  binary_round prec emax false p 0 = S754_infinity false
  \/ exists m e, binary_round prec emax false p 0 = S754_finite false m e
                 /\ 1 <= e /\ 2 ^ 52 <= Z.pos m.
Proof.
  intros Hd. pose proof (digits2_bounds p) as Hp.
  unfold binary_round. rewrite Z.add_0_r, fexp_mid by lia. unfold shl_align.
  destruct (Z.pos (digits2_pos p) - 53 - 0) as [| k | k] eqn:Hk; try lia.
  unfold binary_round_aux, shr_fexp. cbn [Zdigits2 shr_record_of_loc].
  rewrite Z.add_0_r, fexp_mid by lia.
  replace (Z.pos (digits2_pos p) - 53 - 0) with (Z.pos k) by lia.
  cbn [shr]. rewrite Z.add_0_l.
  set (mrs := SpecFloat.iter_pos shr_1 k _).
  assert (Hm1 : 2 ^ 52 <= shr_m mrs < 2 ^ 53).
  { subst mrs. rewrite iter_shr_1_m by (simpl; lia). cbn [shr_m].
    assert (Hpow : 2 ^ Z.pos (digits2_pos p) = 2 ^ 53 * 2 ^ Z.pos k).
    { rewrite <- Z.pow_add_r by lia. f_equal. lia. }
    assert (Hpow' : 2 ^ (Z.pos (digits2_pos p) - 1) = 2 ^ 52 * 2 ^ Z.pos k).
    { rewrite <- Z.pow_add_r by lia. f_equal. lia. }
    assert (Hk0 : 0 < 2 ^ Z.pos k) by (apply Z.pow_pos_nonneg; lia).
    split.
    - apply Z.div_le_lower_bound; lia.
    - apply Z.div_lt_upper_bound; lia. }
  pose proof (round_nearest_even_bounds (shr_m mrs) (loc_of_shr_record mrs)) as Hr.
  set (m2 := round_nearest_even _ _) in *.
  assert (Hm2 : 2 ^ 52 <= m2 <= 2 ^ 53) by lia.
  assert (Hm2pos : 0 < m2) by lia.
  pose proof (Zdigits2_bounds m2 Hm2pos) as Hdg.
  assert (Hdg' : Zdigits2 m2 = 53 \/ Zdigits2 m2 = 54).
  { assert (52 < Zdigits2 m2).
    { apply (Z.pow_lt_mono_r_iff 2); [lia | | lia].
      destruct m2; simpl; lia. }
    assert (Zdigits2 m2 - 1 < 54).
    { apply (Z.pow_lt_mono_r_iff 2); [lia | lia |].
      change (2 ^ 54) with (2 * 2 ^ 53). lia. }
    lia. }
  destruct Hdg' as [Hdg' | Hdg']; rewrite Hdg'.
  - rewrite fexp_mid by lia.
    replace (53 + Z.pos k - 53 - Z.pos k) with 0 by lia.
    cbn [shr shr_m].
    destruct m2 as [| m | m]; try lia.
    destruct (Z.pos k <=? emax - prec); [right | left; reflexivity].
    exists m, (Z.pos k). split; [reflexivity | lia].
  - rewrite fexp_mid by lia.
    replace (54 + Z.pos k - 53 - Z.pos k) with 1 by lia.
    cbn [shr SpecFloat.iter_pos].
    assert (Hm3 : shr_m (shr_1 {| shr_m := m2; shr_r := false; shr_s := false |}) = m2 / 2).
    { apply shr_1_m. simpl. lia. }
    assert (Hm3' : 2 ^ 52 <= m2 / 2).
    { apply Z.div_le_lower_bound; [lia |].
      assert (2 ^ 53 <= m2); [| change (2 ^ 53) with (2 * 2 ^ 52) in *; lia].
      rewrite Hdg' in Hdg. change (54 - 1) with 53 in Hdg. lia. }
    rewrite Hm3. destruct (m2 / 2) as [| m | m] eqn:Hq; try lia.
    destruct (Z.pos k + 1 <=? emax - prec); [right | left; reflexivity].
    exists m, (Z.pos k + 1). split; [reflexivity | lia].
Qed.

(** The order between the float of a positive [int] and an [int] up to
    2^52 is the order between the two [int]s. *)
Lemma float_of_pos_compare_int (p : positive) (k : Z) :
  k <= 2 ^ 52 ->
  float_compare_int (binary_normalize prec emax (Z.pos p) 0 false) k = Some (Z.pos p ?= k).
Proof.
  intros Hk. cbn [binary_normalize].
  destruct (Z_le_gt_dec (Z.pos (digits2_pos p)) 53) as [Hd | Hd].
  - destruct (binary_round_small p Hd) as (m & e & -> & He & Hm).
    unfold float_compare_int. destruct (0 <=? e) eqn:He0.
    + apply Z.leb_le in He0. assert (e = 0) by lia. subst e.
      simpl in Hm. f_equal. rewrite Hm. f_equal. simpl. lia.
    + f_equal. rewrite Hm.
      assert (Hc : 0 < 2 ^ (- e)) by (apply Z.pow_pos_nonneg; lia).
      destruct (Z.compare_spec (Z.pos p) k) as [-> | Hlt | Hlt];
        [apply Z.compare_refl | apply Z.compare_lt_iff; nia | apply Z.compare_gt_iff; nia].
  - pose proof (digits2_bounds p) as Hp.
    assert (Hbig : 2 ^ 53 <= Z.pos p).
    { eapply Z.le_trans; [| apply Hp]. apply Z.pow_le_mono_r; lia. }
    assert (Hgt : (Z.pos p ?= k) = Gt).
    { apply Z.compare_gt_iff. change (2 ^ 53) with (2 * 2 ^ 52) in Hbig. lia. }
    rewrite Hgt.
    destruct (binary_round_large p) as [-> | (m & e & -> & He & Hm)]; [lia | reflexivity |].
    unfold float_compare_int. assert (He0 : (0 <=? e) = true) by (apply Z.leb_le; lia).
    rewrite He0. f_equal. apply Z.compare_gt_iff.
    assert (2 <= 2 ^ e).
    { change 2 with (2 ^ 1) at 1. apply Z.pow_le_mono_r; lia. }
    nia.
Qed.

Lemma fold_digits_nonneg (ds : list Z) :
  Forall (fun d => 0 <= d) ds ->
  forall acc, 0 <= acc -> 0 <= fold_left (fun acc d => 10 * acc + d) ds acc.
Proof.
  induction 1 as [| d ds Hd _ IH]; intros acc Hacc; simpl; [exact Hacc |].
  apply IH. lia.
Qed.

(** The float of a number written in digits reaches the budget threshold
    exactly when the number does. *)
Lemma decimal_to_float_ge_threshold (n : Z) :
  0 <= n ->
  py_ge (NFloat (decimal_to_float false n 0)) (NInt 10000) = (10000 <=? n).
Proof.
  intros Hn. destruct n as [| p | p]; [reflexivity | | lia].
  unfold decimal_to_float, round_decimal. cbn [Z.leb Z.compare].
  change (10 ^ 0) with 1. rewrite Z.mul_1_r.
  unfold py_ge, number_compare.
  rewrite float_of_pos_compare_int by (vm_compute; discriminate).
  rewrite (Z.leb_compare 10000 (Z.pos p)), (Z.compare_antisym (Z.pos p) 10000).
  destruct (Z.pos p ?= 10000); reflexivity.
Qed.

Section ValidatedLead.

Context {py : interpreter}.

Lemma number_value_nonneg (s : pystr) : 0 <= number_value s.
Proof.
  unfold number_value, digits_value. apply fold_digits_nonneg; [| lia].
  apply Forall_forall. intros d Hd. apply list_elem_of_In, in_map_iff in Hd.
  destruct Hd as (c & <- & _). unfold digit_value. lia.
Qed.

(** C10, with the bounds that [float] and [int] put on the number of
    digits. When the budget and the timeline were accepted as numbers and
    the interest level as a scale value, the budget has no more digits after
    its leading zeros than [float] reads and the timeline no more digits
    than [int] converts (no decimal digit being white space, as in every
    Unicode database), then [float(budget)], [int(timeline)] and
    [int(interest_level)] all succeed, the [try] body returns, and the
    category is the one of the three threshold tests on the numbers
    entered. *)
Theorem validated_lead_scored_by_thresholds (ld : gmap string value)
    (b t i : pystr) :
  decimals_are_not_spaces = true ->
  ld !! "budget" = Some (VStr b) ->
  ld !! "timeline" = Some (VStr t) ->
  ld !! "interest_level" = Some (VStr i) ->
  validate_response b "number" = true ->
  validate_response t "number" = true ->
  validate_response i "scale" = true ->
  exceeds_strtod_max_digits (significant_digits b) 0 = false ->
  exceeds_int_max_str_digits (Z.of_nat (digit_count t)) = false ->
  exists (budget : spec_float) (interest_level : Z),
    py_float (VStr b) = Return budget
    /\ py_int (VStr t) = Return (number_value t)
    /\ py_int (VStr i) = Return interest_level
    /\ (exists s, qualify_lead_try ld = Return (s, qualify_lead ld))
    /\ py_ge (NFloat budget) (NInt 10000) = (10000 <=? number_value b)
    /\ qualify_lead ld
       = spec_category
           (spec_weighted_score (10000 <=? number_value b)
              (number_value t <=? 30) (7 <=? interest_level)).
Proof.
  intros Hwf Hb Ht Hi Hvb Hvt Hvi Hblim Hlim.
  destruct (validated_number_parses b Hwf Hvb) as [Hfb _].
  rewrite Hblim in Hfb.
  destruct (validated_number_parses t Hwf Hvt) as [_ Hit].
  rewrite Hlim in Hit.
  destruct (validated_scale_parses i Hvi) as (n & Hn & Hii).
  pose proof (decimal_to_float_ge_threshold _ (number_value_nonneg b)) as Hge.
  destruct (qualify_lead_try_parsed ld
              (decimal_to_float false (number_value b) 0) (number_value t) n)
    as (s & Hrun & _).
  { rewrite (dict_get_Some _ _ _ _ Hb). exact Hfb. }
  { rewrite (dict_get_Some _ _ _ _ Ht). exact Hit. }
  { rewrite (dict_get_Some _ _ _ _ Hi). exact Hii. }
  rewrite Hge in Hrun.
  assert (Hq : qualify_lead ld
               = spec_category
                   (spec_weighted_score (10000 <=? number_value b)
                      (number_value t <=? 30) (7 <=? n))).
  { unfold qualify_lead. rewrite Hrun. reflexivity. }
  exists (decimal_to_float false (number_value b) 0), n.
  repeat split; try assumption.
  exists s. rewrite Hq. exact Hrun.
Qed.

(** A budget of more ones than [float] reads passes the number pattern and
    makes [float] raise, whatever the rest of the lead. *)
Lemma budget_beyond_strtod_digits (n : nat) (ld : gmap string value) :
  decimals_are_not_spaces = true ->
  MAX_DIGITS < Z.of_nat n ->
  validate_response (repeat 49%N n) "number" = true
  /\ py_float (VStr (repeat 49%N n)) = Raise ValueError
  /\ qualify_lead (<["budget" := VStr (repeat 49%N n)]> ld) = "Cold".
Proof.
  intros Hwf Hn.
  assert (Hds : Forall (fun c => Py_UNICODE_ISDECIMAL c = true) (repeat 49%N n)).
  { apply Forall_forall. intros c Hc. apply list_elem_of_In, repeat_spec in Hc.
    subst c. reflexivity. }
  assert (Hv : validate_response (repeat 49%N n) "number" = true).
  { apply number_pattern_accepts. exists (repeat 49%N n).
    split; [| split; [exact Hds | left; reflexivity]].
    destruct n; [simpl in Hn; unfold MAX_DIGITS in Hn; lia | discriminate]. }
  assert (Hsig : significant_digits (repeat 49%N n) = n).
  { unfold significant_digits.
    rewrite <- (app_nil_r (repeat 49%N n)), (decimal_digits_run _ [] Hds) by auto.
    rewrite map_repeat. change (digit_value 49) with 1.
    destruct n; [reflexivity |]. cbn [repeat drop_zeros Z.eqb].
    change (1 :: repeat 1 n) with (repeat 1 (S n)). apply repeat_length. }
  assert (Hf : py_float (VStr (repeat 49%N n)) = Raise ValueError).
  { destruct (validated_number_parses _ Hwf Hv) as [-> _]. rewrite Hsig.
    unfold exceeds_strtod_max_digits.
    apply Z.ltb_lt in Hn. rewrite Hn. reflexivity. }
  split; [exact Hv | split; [exact Hf |]].
  unfold qualify_lead, qualify_lead_try.
  rewrite (dict_get_Some _ "budget" _ (VStr (repeat 49%N n))) by apply lookup_insert_eq.
  rewrite Hf. reflexivity.
Qed.

End ValidatedLead.

(** * The rest of the script *)

(** ** The lead scorer, category by category *)

Section ScorerCases.

Context {py : interpreter}.

(** The two ways [qualify_lead] ends: the three conversions return and the
    category is that of the three threshold tests, or one of them raises
    and the category is Cold. *)
Lemma qualify_lead_cases (ld : gmap string value) :
  (exists (budget : spec_float) (timeline interest_level : Z),
      py_float (dict_get ld "budget" (VInt 0)) = Return budget
      /\ py_int (dict_get ld "timeline" (VInt 999)) = Return timeline
      /\ py_int (dict_get ld "interest_level" (VInt 0)) = Return interest_level
      /\ qualify_lead ld
         = spec_category
             (spec_weighted_score (py_ge (NFloat budget) (NInt 10000))
                (timeline <=? 30) (7 <=? interest_level)))
  \/ ((raises (py_float (dict_get ld "budget" (VInt 0)))
       \/ raises (py_int (dict_get ld "timeline" (VInt 999)))
       \/ raises (py_int (dict_get ld "interest_level" (VInt 0))))
      /\ qualify_lead ld = "Cold").
Proof.
  destruct (py_float (dict_get ld "budget" (VInt 0))) as [b | e] eqn:Hb.
  2:{ right. split; [left; exists e; reflexivity |].
      unfold qualify_lead, qualify_lead_try. rewrite Hb. reflexivity. }
  destruct (py_int (dict_get ld "timeline" (VInt 999))) as [t | e] eqn:Ht.
  2:{ right. split; [right; left; exists e; reflexivity |].
      unfold qualify_lead, qualify_lead_try. rewrite Hb, Ht. reflexivity. }
  destruct (py_int (dict_get ld "interest_level" (VInt 0))) as [i | e] eqn:Hi.
  2:{ right. split; [right; right; exists e; reflexivity |].
      unfold qualify_lead, qualify_lead_try. rewrite Hb, Ht, Hi. reflexivity. }
  left. exists b, t, i.
  destruct (qualify_lead_try_parsed ld b t i Hb Ht Hi) as (s & Hrun & _).
  repeat split. unfold qualify_lead. rewrite Hrun. reflexivity.
Qed.

Lemma spec_category_range (score : Z) :
  In (spec_category score) ["Hot"; "Warm"; "Cold"]%string.
Proof.
  unfold spec_category. destruct (80 <=? score); [left; reflexivity |].
  destruct (50 <=? score); [right; left | right; right; left]; reflexivity.
Qed.

Lemma qualify_lead_range (ld : gmap string value) :
  In (qualify_lead ld) ["Hot"; "Warm"; "Cold"]%string.
Proof.
  destruct (qualify_lead_cases ld) as [(b & t & i & _ & _ & _ & ->) | [_ ->]].
  - apply spec_category_range.
  - right; right; left; reflexivity.
Qed.

(** X1. [qualify_lead] returns Hot exactly when the three conversions
    return and the three thresholds are met. *)
Theorem qualify_lead_hot_iff (ld : gmap string value) :
  qualify_lead ld = "Hot" <->
  exists (budget : spec_float) (timeline interest_level : Z),
    py_float (dict_get ld "budget" (VInt 0)) = Return budget
    /\ py_int (dict_get ld "timeline" (VInt 999)) = Return timeline
    /\ py_int (dict_get ld "interest_level" (VInt 0)) = Return interest_level
    /\ py_ge (NFloat budget) (NInt 10000) = true
    /\ timeline <= 30
    /\ 7 <= interest_level.
Proof.
  split.
  - intros Hhot.
    destruct (qualify_lead_cases ld) as [(b & t & i & Hb & Ht & Hi & Hq) | [_ Hq]];
      rewrite Hq in Hhot; [| discriminate].
    exists b, t, i. repeat (split; [assumption |]).
    destruct (py_ge (NFloat b) (NInt 10000)), (Z.leb_spec t 30), (Z.leb_spec 7 i);
      try discriminate Hhot.
    auto.
  - intros (b & t & i & Hb & Ht & Hi & Hbm & Htm & Him).
    destruct (qualify_lead_try_parsed ld b t i Hb Ht Hi) as (s & Hrun & _).
    unfold qualify_lead. rewrite Hrun, Hbm.
    apply Z.leb_le in Htm, Him. rewrite Htm, Him. reflexivity.
Qed.

(** X2. [qualify_lead] returns Warm exactly when the three conversions
    return and exactly two of the three thresholds are met. *)
Theorem qualify_lead_warm_iff (ld : gmap string value) :
  qualify_lead ld = "Warm" <->
  exists (budget : spec_float) (timeline interest_level : Z),
    py_float (dict_get ld "budget" (VInt 0)) = Return budget
    /\ py_int (dict_get ld "timeline" (VInt 999)) = Return timeline
    /\ py_int (dict_get ld "interest_level" (VInt 0)) = Return interest_level
    /\ (Nat.b2n (py_ge (NFloat budget) (NInt 10000))
        + Nat.b2n (timeline <=? 30)%Z + Nat.b2n (7 <=? interest_level)%Z = 2)%nat.
Proof.
  split.
  - intros Hwarm.
    destruct (qualify_lead_cases ld) as [(b & t & i & Hb & Ht & Hi & Hq) | [_ Hq]];
      rewrite Hq in Hwarm; [| discriminate].
    exists b, t, i. repeat (split; [assumption |]).
    destruct (py_ge (NFloat b) (NInt 10000)), (t <=? 30), (7 <=? i);
      try discriminate Hwarm; reflexivity.
  - intros (b & t & i & Hb & Ht & Hi & Htwo).
    destruct (qualify_lead_try_parsed ld b t i Hb Ht Hi) as (s & Hrun & _).
    unfold qualify_lead. rewrite Hrun.
    destruct (py_ge (NFloat b) (NInt 10000)), (t <=? 30), (7 <=? i);
      try discriminate Htwo; reflexivity.
Qed.

(** X3. [qualify_lead] returns Cold exactly when a conversion raises or
    at most one of the three thresholds is met. *)
Theorem qualify_lead_cold_iff (ld : gmap string value) :
  qualify_lead ld = "Cold" <->
  (raises (py_float (dict_get ld "budget" (VInt 0)))
   \/ raises (py_int (dict_get ld "timeline" (VInt 999)))
   \/ raises (py_int (dict_get ld "interest_level" (VInt 0))))
  \/ exists (budget : spec_float) (timeline interest_level : Z),
       py_float (dict_get ld "budget" (VInt 0)) = Return budget
       /\ py_int (dict_get ld "timeline" (VInt 999)) = Return timeline
       /\ py_int (dict_get ld "interest_level" (VInt 0)) = Return interest_level
       /\ (Nat.b2n (py_ge (NFloat budget) (NInt 10000))
           + Nat.b2n (timeline <=? 30)%Z + Nat.b2n (7 <=? interest_level)%Z <= 1)%nat.
Proof.
  split.
  - intros Hcold.
    destruct (qualify_lead_cases ld) as [(b & t & i & Hb & Ht & Hi & Hq) | [Hr Hq]];
      [| left; exact Hr].
    right. rewrite Hq in Hcold.
    exists b, t, i. repeat (split; [assumption |]).
    destruct (py_ge (NFloat b) (NInt 10000)), (t <=? 30), (7 <=? i);
      try discriminate Hcold; simpl; lia.
  - intros [Hr | (b & t & i & Hb & Ht & Hi & Hone)].
    + destruct (qualify_lead_cases ld) as [(b & t & i & Hb & Ht & Hi & _) | [_ Hq]];
        [| exact Hq].
      exfalso. destruct Hr as [[e He] | [[e He] | [e He]]]; congruence.
    + destruct (qualify_lead_try_parsed ld b t i Hb Ht Hi) as (s & Hrun & _).
      unfold qualify_lead. rewrite Hrun.
      destruct (py_ge (NFloat b) (NInt 10000)), (t <=? 30), (7 <=? i);
        simpl in Hone; try lia; reflexivity.
Qed.

(** X4. A lead that is Hot has a budget, a timeline and an interest level:
    the defaults that stand in for a missing field (0, 999 and 0) meet no
    threshold. *)
Theorem hot_lead_has_the_three_fields (ld : gmap string value) :
  qualify_lead ld = "Hot" -> Forall (present ld) qualify_fields.
Proof.
  intros Hhot.
  destruct (qualify_lead_cases ld) as [(b & t & i & Hb & Ht & Hi & Hq) | [_ Hq]];
    rewrite Hq in Hhot; [| discriminate].
  assert (Hmet : py_ge (NFloat b) (NInt 10000) = true /\ (t <=? 30) = true
                 /\ (7 <=? i) = true).
  { destruct (py_ge (NFloat b) (NInt 10000)), (t <=? 30), (7 <=? i);
      try discriminate Hhot; auto. }
  destruct Hmet as (Hbm & Htm & Him).
  unfold qualify_fields, present, dict_get in *.
  repeat constructor.
  - destruct (ld !! "budget"); [eauto |]. exfalso.
    cbn in Hb. injection Hb as <-. vm_compute in Hbm. discriminate.
  - destruct (ld !! "timeline"); [eauto |]. exfalso.
    cbn in Ht. injection Ht as <-. discriminate.
  - destruct (ld !! "interest_level"); [eauto |]. exfalso.
    cbn in Hi. injection Hi as <-. discriminate.
Qed.

End ScorerCases.

(** ** The sequencer, case by case *)

Lemma set_conversation_stage_same (st : session_state) :
  set_conversation_stage (conversation_stage st) st = st.
Proof. destruct st; reflexivity. Qed.

(** The loop over a list whose questions all name a field raises nothing. *)
Lemma first_unanswered_returns (qs : list question) (data : gmap string value) :
  Forall (fun q => is_Some (q_field q)) qs ->
  exists r, first_unanswered qs data = Return r.
Proof.
  induction 1 as [| q qs [f Hf] _ IH]; simpl; [eauto |].
  unfold question_field. rewrite Hf. cbn [mbind outcome_bind].
  destruct (negb (contains data f)); [eauto | exact IH].
Qed.

(** The question that the loop returns splits the list: the questions
    before it are answered. *)
Lemma first_unanswered_split (qs : list question) (data : gmap string value) (q : question) :
  first_unanswered qs data = Return (Some q) ->
  exists before after, qs = before ++ q :: after /\ all_answered before data.
Proof.
  induction qs as [| q0 qs IH]; simpl; [discriminate |].
  unfold question_field. destruct (q_field q0) as [f |] eqn:Hf; [| discriminate].
  cbn [mbind outcome_bind].
  destruct (contains data f) eqn:Hc; cbn [negb].
  - intros H. destruct (IH H) as (before & after & -> & Hb).
    exists (q0 :: before), after. split; [reflexivity |].
    constructor; [| exact Hb]. exists f. split; [exact Hf | apply contains_true, Hc].
  - intros [= <-]. exists [], qs. split; [reflexivity | constructor].
Qed.

Lemma get_next_question_cases (st : session_state) :
  next_question st (get_next_question st).
Proof.
  destruct (first_unanswered_returns stages_qualify (lead_data st)
              (proj1 stages_have_fields)) as [rq Hrq].
  destruct (first_unanswered_returns stages_contact (lead_data st)
              (proj2 stages_have_fields)) as [rc Hrc].
  destruct (decide (conversation_stage st = "qualify")) as [Hq | Hq].
  { rewrite (get_next_question_qualify st Hq), Hrq.
    destruct rq as [q |]; [apply next_qualify; assumption |].
    rewrite Hrc. destruct rc as [q |].
    - apply next_contact; [left; split |]; assumption.
    - apply next_schedule; [left; split |]; assumption. }
  destruct (decide (conversation_stage st = "contact")) as [Hc | Hc].
  { rewrite (get_next_question_contact st Hc), Hrc. destruct rc as [q |].
    - rewrite <- (set_conversation_stage_same st) at 2. rewrite Hc.
      apply next_contact; [right |]; assumption.
    - apply next_schedule; [right |]; assumption. }
  rewrite get_next_question_eq.
  destruct (String.eqb_spec (conversation_stage st) "greeting") as [Hg | Hg];
    [apply next_greeting, Hg |].
  apply String.eqb_neq in Hq, Hc. rewrite Hq, Hc.
  apply String.eqb_neq in Hq, Hc.
  destruct (String.eqb_spec (conversation_stage st) "schedule") as [Hs | Hs].
  - apply next_scheduled, Hs.
  - apply next_fallback; assumption.
Qed.

Lemma next_question_frame (st st0 : session_state) (q : question) :
  next_question st (q, st0) ->
  st0 = set_conversation_stage (conversation_stage st0) st.
Proof.
  inversion 1; subst; cbn [conversation_stage set_conversation_stage];
    try reflexivity; symmetry; apply set_conversation_stage_same.
Qed.

(** A question with a field comes from the list of the stage that
    [get_next_question] leaves, and its field has no answer. *)
Lemma next_question_field (st st0 : session_state) (q : question) (f : string) :
  next_question st (q, st0) ->
  q_field q = Some f ->
  lead_data st !! f = None
  /\ (In q stages_qualify /\ conversation_stage st0 = "qualify"
      \/ In q stages_contact /\ conversation_stage st0 = "contact").
Proof.
  inversion 1; subst; try discriminate; intros Hf;
    match goal with
    | H : first_unanswered _ _ = Return (Some _) |- _ =>
        destruct (first_unanswered_Some _ _ _ H) as (Hin & f' & Hf' & Hm)
    end;
    (split; [congruence | auto]).
Qed.

(** X5. [get_next_question] changes nothing of the session but the stage. *)
Theorem get_next_question_only_sets_stage (st : session_state) :
  snd (get_next_question st)
  = set_conversation_stage (conversation_stage (snd (get_next_question st))) st.
Proof.
  pose proof (get_next_question_cases st) as H.
  destruct (get_next_question st) as [q st0]. exact (next_question_frame _ _ _ H).
Qed.

(** X6. Calling [get_next_question] again changes nothing more and returns
    the same question. *)
Theorem get_next_question_idempotent (st : session_state) :
  get_next_question (snd (get_next_question st)) = get_next_question st.
Proof.
  pose proof (get_next_question_cases st) as H.
  destruct (get_next_question st) as [q st0]. cbn [snd].
  inversion H; subst; clear H.
  - rewrite get_next_question_eq.
    match goal with H : conversation_stage _ = _ |- _ => rewrite H end. reflexivity.
  - rewrite get_next_question_qualify by assumption.
    match goal with H : first_unanswered _ _ = _ |- _ => rewrite H end. reflexivity.
  - rewrite get_next_question_contact by reflexivity.
    cbn [lead_data set_conversation_stage].
    match goal with H : first_unanswered _ _ = _ |- _ => rewrite H end.
    f_equal. 
  - rewrite get_next_question_eq. reflexivity.
  - rewrite get_next_question_eq.
    match goal with H : conversation_stage _ = _ |- _ => rewrite H end. reflexivity.
  - rewrite get_next_question_eq.
    repeat match goal with
           | H : conversation_stage _ <> _ |- _ => apply String.eqb_neq in H; rewrite H
           end.
    reflexivity.
Qed.

(** X7. The fallback question is returned at the unknown stages only: at
    greeting, qualify, contact and schedule the function returns a question
    of the stage tables, and its exception handler is never entered. *)
Theorem fallback_only_at_unknown_stage (st : session_state) :
  fst (get_next_question st) = fallback_question <->
  ~ In (conversation_stage st) ["greeting"; "qualify"; "contact"; "schedule"]%string.
Proof.
  pose proof (get_next_question_cases st) as H.
  destruct (get_next_question st) as [q st0]. cbn [fst].
  split.
  - intros ->. inversion H; subst; clear H;
      try match goal with
          | H : first_unanswered _ _ = Return (Some _) |- _ =>
              destruct (first_unanswered_Some _ _ _ H) as (_ & f & Hf & _); discriminate Hf
          end.
    simpl. intros [E | [E | [E | [E | []]]]]; congruence.
  - intros Hno. inversion H; subst; clear H; try reflexivity; exfalso; apply Hno; simpl;
      repeat match goal with
             | H : _ /\ _ |- _ => destruct H
             | H : _ \/ _ |- _ => destruct H
             end; auto.
Qed.

(** X8. A question for a field is the first of its list, in the order of
    the list, whose field has no answer: the questions before it are
    answered, and so are the qualify questions when the session started
    the call at stage qualify and the question is a contact question. *)
Theorem next_question_follows_list_order (st st' : session_state) (q : question) :
  get_next_question st = (q, st') ->
  is_Some (q_field q) ->
  exists before after,
    all_answered before (lead_data st)
    /\ (stages_qualify = before ++ q :: after /\ conversation_stage st' = "qualify"
        \/ stages_contact = before ++ q :: after /\ conversation_stage st' = "contact"
           /\ (conversation_stage st = "qualify" ->
               all_answered stages_qualify (lead_data st))).
Proof.
  intros Hg [f Hf]. pose proof (get_next_question_cases st) as H. rewrite Hg in H.
  inversion H; subst; clear H; try discriminate Hf.
  - match goal with
    | H : first_unanswered _ _ = Return (Some _) |- _ =>
        destruct (first_unanswered_split _ _ _ H) as (before & after & Hsplit & Hb)
    end.
    exists before, after. split; [exact Hb | left; split; assumption].
  - match goal with
    | H : first_unanswered _ _ = Return (Some _) |- _ =>
        destruct (first_unanswered_split _ _ _ H) as (before & after & Hsplit & Hb)
    end.
    exists before, after. split; [exact Hb | right]. split; [exact Hsplit |].
    split; [reflexivity |]. intros Hq.
    match goal with
    | H : _ /\ _ \/ _ |- _ => destruct H as [[_ Hall] | Hc]
    end.
    + apply first_unanswered_None, Hall.
    + congruence.
Qed.

(** ** The field validator, pattern by pattern *)

Section PatternTheorems.

Context {py : interpreter}.

(** A repetition of a character class takes a prefix of class members,
    within both bounds. *)
Lemma iterate_class_bounded (items : list class_item) (lo : nat) (hi : option nat)
    (k : bool -> pystr -> bool) (fuel count : nat) (bos : bool) (s : pystr) :
  iterate (rmatch (In_class items)) lo hi k fuel count bos s = true ->
  exists pre rest,
    s = pre ++ rest
    /\ Forall (fun c => in_class items c = true) pre
    /\ (lo <= count + length pre)%nat
    /\ match hi with
       | Some h => pre = [] \/ (count + length pre <= h)%nat
       | None => True
       end
    /\ k (match pre with [] => bos | _ => false end) rest = true.
Proof.
  revert count bos s.
  induction fuel as [| fuel IH]; intros count bos s; simpl; [discriminate |].
  intros H. apply orb_true_iff in H as [H | H].
  - apply andb_true_iff in H as [Hb H].
    destruct s as [| c s']; [discriminate |].
    apply andb_true_iff in H as [Hc H]. apply andb_true_iff in H as [_ H].
    destruct (IH _ _ _ H) as (pre & rest & -> & Hpre & Hlo & Hhi & Hk).
    exists (c :: pre), rest. split; [reflexivity |].
    split; [constructor; assumption |].
    split; [simpl; lia |].
    split; [| destruct pre; exact Hk].
    destruct hi as [h |]; [| exact I]. right.
    unfold below in Hb. apply Nat.ltb_lt in Hb.
    destruct Hhi as [-> | Hhi]; simpl in *; lia.
  - apply andb_true_iff in H as [Hlo Hk]. apply Nat.leb_le in Hlo.
    exists [], s. split; [reflexivity |]. split; [constructor |].
    split; [simpl; lia |]. split; [destruct hi; auto | exact Hk].
Qed.

(** What a bounded repetition of a character class, followed by [k],
    matches. *)
Lemma rmatch_repeat_class (items : list class_item) (lo : nat) (hi : option nat)
    (bos : bool) (s : pystr) (k : bool -> pystr -> bool) :
  rmatch (Max_repeat lo hi (In_class items)) bos s k = true <->
  exists pre rest,
    s = pre ++ rest
    /\ Forall (fun c => in_class items c = true) pre
    /\ (lo <= length pre)%nat
    /\ match hi with Some h => (length pre <= h)%nat | None => True end
    /\ k (match pre with [] => bos | _ => false end) rest = true.
Proof.
  cbn [rmatch]. split.
  - intros H. apply iterate_class_bounded in H as (pre & rest & -> & Hpre & Hlo & Hhi & Hk).
    exists pre, rest. repeat (split; [assumption || reflexivity |]).
    split; [| exact Hk].
    destruct hi as [h |]; [| exact I].
    destruct Hhi as [-> | Hhi]; simpl in *; lia.
  - intros (pre & rest & -> & Hpre & Hlo & Hhi & Hk).
    apply iterate_class_intro.
    + exact Hpre.
    + simpl. exact Hlo.
    + destruct hi; [simpl; exact Hhi | exact I].
    + rewrite length_app. lia.
    + exact Hk.
Qed.

(** What a character class, followed by [k], matches. *)
Lemma rmatch_class (items : list class_item) (bos : bool) (s : pystr)
    (k : bool -> pystr -> bool) :
  rmatch (In_class items) bos s k = true <->
  exists c s', s = c :: s' /\ in_class items c = true /\ k false s' = true.
Proof.
  cbn [rmatch]. destruct s as [| c s'].
  - split; [discriminate | intros (? & ? & [=] & _)].
  - rewrite andb_true_iff. split.
    + intros [Hc Hk]. eauto.
    + intros (? & ? & [= <- <-] & Hc & Hk). auto.
Qed.

Lemma in_class_local (c : N) :
  in_class (alnum ++ [lit "_"; lit "."; lit "+"; lit "-"]) c = email_local_char c.
Proof.
  unfold email_local_char, ascii_alnum, in_class. cbn.
  rewrite !orb_assoc. reflexivity.
Qed.

Lemma in_class_domain (c : N) :
  in_class (alnum ++ [lit "-"]) c = email_domain_char c.
Proof.
  unfold email_domain_char, ascii_alnum, in_class. cbn.
  rewrite !orb_assoc. reflexivity.
Qed.

Lemma in_class_suffix (c : N) :
  in_class (alnum ++ [lit "-"; lit "."]) c = email_suffix_char c.
Proof.
  unfold email_suffix_char, ascii_alnum, in_class. cbn.
  rewrite !orb_assoc. reflexivity.
Qed.

Lemma in_class_literal (x c : N) : in_class [Literal x] c = true <-> c = x.
Proof. unfold in_class. cbn. rewrite orb_false_r. apply N.eqb_eq. Qed.

Lemma in_class_digit (c : N) : in_class [Category_digit] c = Py_UNICODE_ISDECIMAL c.
Proof. unfold in_class. cbn. apply orb_false_r. Qed.

Lemma in_class_1_9 (c : N) : in_class [range "1" "9"] c = true <-> (49 <= c <= 57)%N.
Proof.
  unfold in_class. cbn. rewrite orb_false_r, andb_true_iff, !N.leb_le. reflexivity.
Qed.

Lemma end_or_newline (rest : pystr) (body s : pystr) :
  rest = [] \/ rest = [Chr.newline] ->
  s = body ++ rest -> s = body \/ s = body ++ [Chr.newline].
Proof. intros [-> | ->] ->; [left; apply app_nil_r | right; reflexivity]. Qed.

(** X9. The email validator accepts exactly the texts
    local@domain.suffix, with or without a final newline, where the three
    parts are non-empty, the local part is made of ASCII letters, digits
    and [_.+-], the domain of ASCII letters, digits and [-], and the suffix
    of ASCII letters, digits, [-] and [.]. *)
Theorem email_validator_accepts (s : pystr) :
  validate_response s "email" = true <->
  exists local domain suffix,
    local <> [] /\ domain <> [] /\ suffix <> []
    /\ Forall (fun c => email_local_char c = true) local
    /\ Forall (fun c => email_domain_char c = true) domain
    /\ Forall (fun c => email_suffix_char c = true) suffix
    /\ (s = local ++ u "@" ++ domain ++ u "." ++ suffix
        \/ s = (local ++ u "@" ++ domain ++ u "." ++ suffix) ++ [Chr.newline]).
Proof.
  unfold validate_response.
  change (validation_rules !! "email")
    with (Some {| pattern := (At_beginning
                   +++ plus (In_class (alnum ++ [lit "_"; lit "."; lit "+"; lit "-"]))
                   +++ chr "@" +++ plus (In_class (alnum ++ [lit "-"]))
                   +++ chr "." +++ plus (In_class (alnum ++ [lit "-"; lit "."]))
                   +++ At_end)%re;
                  message := "Please enter a valid email address (e.g., name@company.com)" |}).
  cbn [pattern]. rewrite negb_if. unfold re_match, plus, chr.
  change (N_of_ascii "@") with 64%N. change (N_of_ascii ".") with 46%N.
  set (k0 := fun (_ : bool) (_ : pystr) => true).
  set (C1 := alnum ++ [lit "_"; lit "."; lit "+"; lit "-"]).
  set (C2 := alnum ++ [lit "-"]).
  set (C3 := alnum ++ [lit "-"; lit "."]).
  change (rmatch _ true s k0)
    with (true && rmatch (Max_repeat 1 None (In_class C1)) true s
            (fun b1 s1 => rmatch (In_class [Literal 64]) b1 s1
               (fun b2 s2 => rmatch (Max_repeat 1 None (In_class C2)) b2 s2
                  (fun b3 s3 => rmatch (In_class [Literal 46]) b3 s3
                     (fun b4 s4 => rmatch (Max_repeat 1 None (In_class C3)) b4 s4
                        (fun b5 s5 => rmatch At_end b5 s5 k0)))))).
  cbn [andb].
  destruct (rmatch (Max_repeat 1 None (In_class C1)) true s _) eqn:Hm.
  - split; [intros _ | reflexivity].
    apply rmatch_repeat_class in Hm as (local & r1 & -> & Hl & Hl1 & _ & Hm).
    apply rmatch_class in Hm as (c1 & r2 & -> & ->%in_class_literal & Hm).
    apply rmatch_repeat_class in Hm as (domain & r3 & -> & Hd & Hd1 & _ & Hm).
    apply rmatch_class in Hm as (c2 & r4 & -> & ->%in_class_literal & Hm).
    apply rmatch_repeat_class in Hm as (suffix & r5 & -> & Hs & Hs1 & _ & Hm).
    apply at_end_true in Hm.
    exists local, domain, suffix.
    split; [intros ->; simpl in Hl1; lia |].
    split; [intros ->; simpl in Hd1; lia |].
    split; [intros ->; simpl in Hs1; lia |].
    split; [eapply Forall_impl; [exact Hl |]; intros c; rewrite <- in_class_local; auto |].
    split; [eapply Forall_impl; [exact Hd |]; intros c; rewrite <- in_class_domain; auto |].
    split; [eapply Forall_impl; [exact Hs |]; intros c; rewrite <- in_class_suffix; auto |].
    apply (end_or_newline r5); [exact Hm |].
    cbn [u map list_ascii_of_string app]. change (N_of_ascii "@") with 64%N.
    change (N_of_ascii ".") with 46%N.
    repeat first [rewrite <- app_assoc | progress cbn [app]]. reflexivity.
  - split; [discriminate |]. intros (local & domain & suffix & Hl1 & Hd1 & Hs1
                                       & Hl & Hd & Hs & Hshape).
    exfalso. apply not_true_iff_false in Hm. apply Hm. clear Hm.
    assert (Hs' : exists rest, (rest = [] \/ rest = [Chr.newline])
                    /\ s = local ++ 64%N :: domain ++ 46%N :: suffix ++ rest).
    { destruct Hshape as [-> | ->]; [exists [] | exists [Chr.newline]];
        (split; [auto |]); cbn [u map list_ascii_of_string app];
        change (N_of_ascii "@") with 64%N; change (N_of_ascii ".") with 46%N;
        repeat first [rewrite <- app_assoc | progress cbn [app]];
        rewrite ?app_nil_r; reflexivity. }
    destruct Hs' as (rest & Hrest & ->).
    apply rmatch_repeat_class. eexists local, _. split; [reflexivity |].
    split; [eapply Forall_impl; [exact Hl |]; intros c; rewrite in_class_local; auto |].
    split; [destruct local; [contradiction | simpl; lia] |].
    split; [exact I |].
    apply rmatch_class. eexists _, _. split; [reflexivity |].
    split; [apply in_class_literal; reflexivity |].
    apply rmatch_repeat_class. eexists domain, _. split; [reflexivity |].
    split; [eapply Forall_impl; [exact Hd |]; intros c; rewrite in_class_domain; auto |].
    split; [destruct domain; [contradiction | simpl; lia] |].
    split; [exact I |].
    apply rmatch_class. eexists _, _. split; [reflexivity |].
    split; [apply in_class_literal; reflexivity |].
    apply rmatch_repeat_class. eexists suffix, _. split; [reflexivity |].
    split; [eapply Forall_impl; [exact Hs |]; intros c; rewrite in_class_suffix; auto |].
    split; [destruct suffix; [contradiction | simpl; lia] |].
    split; [exact I |].
    apply at_end_true. exact Hrest.
Qed.


(** X10. The phone validator accepts exactly the texts made of an optional
    plus sign, an ASCII digit from 1 to 9 and then one to fourteen decimal
    digits (of any script), with or without a final newline. *)
Theorem phone_validator_accepts (s : pystr) :
  validate_response s "phone" = true <->
  exists sign first digits,
    (sign = [] \/ sign = u "+")
    /\ (49 <= first <= 57)%N
    /\ (1 <= length digits <= 14)%nat
    /\ Forall (fun c => Py_UNICODE_ISDECIMAL c = true) digits
    /\ (s = sign ++ first :: digits
        \/ s = (sign ++ first :: digits) ++ [Chr.newline]).
Proof.
  unfold validate_response.
  change (validation_rules !! "phone")
    with (Some {| pattern := (At_beginning +++ opt (chr "+") +++ In_class [range "1" "9"]
                              +++ Max_repeat 1 (Some 14%nat) (In_class [Category_digit])
                              +++ At_end)%re;
                  message := "Please enter a valid phone number with country code (e.g., +1234567890)" |}).
  cbn [pattern]. rewrite negb_if. unfold re_match, opt, chr.
  change (N_of_ascii "+") with 43%N.
  set (k0 := fun (_ : bool) (_ : pystr) => true).
  change (rmatch _ true s k0)
    with (true && rmatch (Max_repeat 0 (Some 1%nat) (In_class [Literal 43])) true s
            (fun b1 s1 => rmatch (In_class [range "1" "9"]) b1 s1
               (fun b2 s2 => rmatch (Max_repeat 1 (Some 14%nat) (In_class [Category_digit])) b2 s2
                  (fun b3 s3 => rmatch At_end b3 s3 k0)))).
  cbn [andb].
  destruct (rmatch (Max_repeat 0 (Some 1%nat) (In_class [Literal 43])) true s _) eqn:Hm.
  - split; [intros _ | reflexivity].
    apply rmatch_repeat_class in Hm as (sign & r1 & -> & Hsg & _ & Hsg1 & Hm).
    apply rmatch_class in Hm as (first & r2 & -> & Hf%in_class_1_9 & Hm).
    apply rmatch_repeat_class in Hm as (digits & r3 & -> & Hd & Hd1 & Hd14 & Hm).
    apply at_end_true in Hm.
    exists sign, first, digits.
    split.
    { destruct sign as [| c [| c' sign]]; [left; reflexivity | right | simpl in Hsg1; lia].
      inversion Hsg as [| ? ? Hc _]; subst. apply in_class_literal in Hc. subst c.
      reflexivity. }
    split; [exact Hf |]. split; [lia |].
    split; [eapply Forall_impl; [exact Hd |]; intros c; rewrite <- in_class_digit; auto |].
    apply (end_or_newline r3); [exact Hm |].
    repeat first [rewrite <- app_assoc | progress cbn [app]]. reflexivity.
  - split; [discriminate |].
    intros (sign & first & digits & Hsg & Hf & [Hd1 Hd14] & Hd & Hshape).
    exfalso. apply not_true_iff_false in Hm. apply Hm. clear Hm.
    assert (Hs' : exists rest, (rest = [] \/ rest = [Chr.newline])
                    /\ s = sign ++ first :: digits ++ rest).
    { destruct Hshape as [-> | ->]; [exists [] | exists [Chr.newline]];
        (split; [auto |]);
        repeat first [rewrite <- app_assoc | progress cbn [app]];
        rewrite ?app_nil_r; reflexivity. }
    destruct Hs' as (rest & Hrest & ->).
    apply rmatch_repeat_class. eexists sign, _. split; [reflexivity |].
    split.
    { destruct Hsg as [-> | ->]; repeat constructor. }
    split; [lia |].
    split; [destruct Hsg as [-> | ->]; simpl; lia |].
    apply rmatch_class. eexists _, _. split; [reflexivity |].
    split; [apply in_class_1_9; exact Hf |].
    apply rmatch_repeat_class. eexists digits, _. split; [reflexivity |].
    split; [eapply Forall_impl; [exact Hd |]; intros c; rewrite in_class_digit; auto |].
    split; [exact Hd1 |]. split; [exact Hd14 |].
    apply at_end_true. exact Hrest.
Qed.

(** X11. The scale validator accepts exactly an ASCII digit from 1 to 9 or
    the text 10, with or without a final newline. *)
Theorem scale_validator_accepts (s : pystr) :
  validate_response s "scale" = true <->
  exists body,
    ((exists c, (49 <= c <= 57)%N /\ body = [c]) \/ body = u "10")
    /\ (s = body \/ s = body ++ [Chr.newline]).
Proof.
  unfold validate_response.
  change (validation_rules !! "scale")
    with (Some {| pattern := (At_beginning
                              +++ Branch (In_class [range "1" "9"]) (chr "1" +++ chr "0")
                              +++ At_end)%re;
                  message := "Please enter a number between 1-10" |}).
  cbn [pattern]. rewrite negb_if. unfold re_match, chr.
  change (N_of_ascii "1") with 49%N. change (N_of_ascii "0") with 48%N.
  set (k0 := fun (_ : bool) (_ : pystr) => true).
  change (rmatch _ true s k0)
    with (true && (rmatch (In_class [range "1" "9"]) true s
                     (fun b s' => rmatch At_end b s' k0)
                   || rmatch (In_class [Literal 49]) true s
                        (fun b1 s1 => rmatch (In_class [Literal 48]) b1 s1
                           (fun b s' => rmatch At_end b s' k0)))).
  cbn [andb].
  match goal with |- (if ?b then true else false) = true <-> _ =>
    replace (if b then true else false) with b by (destruct b; reflexivity)
  end.
  rewrite orb_true_iff, !rmatch_class. split.
  - intros [(c & s' & -> & Hc%in_class_1_9 & Hk) | (c & s' & -> & ->%in_class_literal & Hk)].
    + apply at_end_true in Hk. exists [c]. split; [left; eauto |].
      apply (end_or_newline s'); [exact Hk | reflexivity].
    + apply rmatch_class in Hk as (c & s'' & -> & ->%in_class_literal & Hk).
      apply at_end_true in Hk. exists (u "10"). split; [right; reflexivity |].
      apply (end_or_newline s''); [exact Hk | reflexivity].
  - intros (body & Hbody & Hs).
    assert (Hs' : exists rest, (rest = [] \/ rest = [Chr.newline]) /\ s = body ++ rest).
    { destruct Hs as [-> | ->]; [exists [] | exists [Chr.newline]];
        rewrite ?app_nil_r; auto. }
    destruct Hs' as (rest & Hrest & ->).
    destruct Hbody as [(c & Hc & ->) | ->].
    + left. exists c, rest. split; [reflexivity |].
      split; [apply in_class_1_9, Hc | apply at_end_true, Hrest].
    + right. exists 49%N, (48%N :: rest). split; [reflexivity |].
      split; [apply in_class_literal; reflexivity |].
      apply rmatch_class. exists 48%N, rest. split; [reflexivity |].
      split; [apply in_class_literal; reflexivity | apply at_end_true, Hrest].
Qed.

(** X12. The number validator accepts exactly the non-empty runs of decimal
    digits (of any script), with or without a final newline. *)
Theorem number_validator_accepts (s : pystr) :
  validate_response s "number" = true <->
  exists digits,
    digits <> []
    /\ Forall (fun c => Py_UNICODE_ISDECIMAL c = true) digits
    /\ (s = digits \/ s = digits ++ [Chr.newline]).
Proof.
  unfold validate_response.
  change (validation_rules !! "number")
    with (Some {| pattern := (At_beginning +++ plus (In_class [Category_digit]) +++ At_end)%re;
                  message := "Please enter a valid number" |}).
  cbn [pattern]. rewrite negb_if. unfold re_match, plus.
  set (k0 := fun (_ : bool) (_ : pystr) => true).
  change (rmatch _ true s k0)
    with (true && rmatch (Max_repeat 1 None (In_class [Category_digit])) true s
            (fun b s' => rmatch At_end b s' k0)).
  cbn [andb].
  match goal with |- (if ?b then true else false) = true <-> _ =>
    replace (if b then true else false) with b by (destruct b; reflexivity)
  end.
  rewrite rmatch_repeat_class. split.
  - intros (digits & rest & -> & Hd & Hd1 & _ & Hk). apply at_end_true in Hk.
    exists digits. split; [intros ->; simpl in Hd1; lia |].
    split; [eapply Forall_impl; [exact Hd |]; intros c; rewrite <- in_class_digit; auto |].
    apply (end_or_newline rest); [exact Hk | reflexivity].
  - intros (digits & Hne & Hd & Hs).
    exists digits, (if decide (s = digits) then [] else [Chr.newline]).
    split; [destruct (decide (s = digits)) as [-> | Hn];
            [symmetry; apply app_nil_r | destruct Hs; [contradiction | assumption]] |].
    split; [eapply Forall_impl; [exact Hd |]; intros c; rewrite in_class_digit; auto |].
    split; [destruct digits; [contradiction | simpl; lia] |].
    split; [exact I |].
    apply at_end_true. destruct (decide (s = digits)); auto.
Qed.

(** X13. A field type without a rule is not validated: every answer is
    accepted, as for the name, whose question has the type text. *)
Theorem type_without_rule_accepts_all (s : pystr) (field_type : string) :
  ~ In field_type ["email"; "phone"; "number"; "scale"]%string ->
  validate_response s field_type = true.
Proof.
  intros Hno. unfold validate_response, validation_rules.
  rewrite !lookup_insert_ne, lookup_singleton_ne; [reflexivity | ..];
    intros <-; apply Hno; simpl; tauto.
Qed.

End PatternTheorems.

(** ** The progress indicator *)

(** The percentage of each stage; an unknown stage shows 0. *)
Lemma show_progress_cases (st : session_state) :
  conversation_stage st = "greeting" /\ show_progress st = 0
  \/ conversation_stage st = "qualify" /\ show_progress st = 25
  \/ conversation_stage st = "contact" /\ show_progress st = 50
  \/ conversation_stage st = "schedule" /\ show_progress st = 75
  \/ conversation_stage st = "completed" /\ show_progress st = 100
  \/ ~ In (conversation_stage st)
         ["greeting"; "qualify"; "contact"; "schedule"; "completed"]%string
     /\ show_progress st = 0.
Proof.
  unfold show_progress, dict_get, progress_stages.
  destruct (decide ("greeting"%string = conversation_stage st)) as [<- | Hg]; [tauto |].
  destruct (decide ("qualify"%string = conversation_stage st)) as [<- | Hq]; [tauto |].
  destruct (decide ("contact"%string = conversation_stage st)) as [<- | Hc]; [tauto |].
  destruct (decide ("schedule"%string = conversation_stage st)) as [<- | Hs]; [tauto |].
  destruct (decide ("completed"%string = conversation_stage st)) as [<- | Hd]; [tauto |].
  do 5 right. split; [simpl; intuition congruence |].
  rewrite !lookup_insert_ne, lookup_singleton_ne by assumption. reflexivity.
Qed.

Lemma show_progress_values (st : session_state) :
  In (show_progress st) [0; 25; 50; 75; 100].
Proof.
  destruct (show_progress_cases st) as [[_ ->] | [[_ ->] | [[_ ->] | [[_ ->] | [[_ ->] | [_ ->]]]]]];
    simpl; tauto.
Qed.

(** X14. The progress shown is a percentage, and it is 100 at the stage
    completed only; an unknown stage shows 0. *)
Theorem progress_is_full_only_when_completed (st : session_state) :
  0 <= show_progress st <= 100
  /\ (show_progress st = 100 <-> conversation_stage st = "completed")
  /\ (~ In (conversation_stage st)
          ["greeting"; "qualify"; "contact"; "schedule"; "completed"]%string ->
      show_progress st = 0).
Proof.
  destruct (show_progress_cases st)
    as [[Hs ->] | [[Hs ->] | [[Hs ->] | [[Hs ->] | [[Hs ->] | [Hs ->]]]]]];
    (split; [lia |]); (split; [| try reflexivity; intros Hno; exfalso; apply Hno;
                                  rewrite Hs; simpl; tauto]);
    (split; [try discriminate; try (intros _; exact Hs) | ]);
    try (rewrite Hs; discriminate); try reflexivity.
  intros Hc. exfalso. apply Hs. rewrite Hc. simpl. tauto.
Qed.

(** ** One run of the script *)

Ltac session_simpl :=
  cbn [messages lead_data conversation_stage interactions conversion_rate lead_scores
       set_conversation_stage set_lead_data append_lead_score track_analytics
       initial_state] in *.

Lemma required_fields_split (P : string -> Prop) :
  Forall P required_fields <-> Forall P qualify_fields /\ Forall P contact_fields.
Proof.
  unfold required_fields, qualify_fields, contact_fields.
  rewrite !Forall_cons, !Forall_nil. tauto.
Qed.

Lemma present_insert (data : gmap string value) (k f : string) (v : value) :
  present data f -> present (<[k := v]> data) f.
Proof.
  unfold present. intros H. apply lookup_insert_is_Some.
  destruct (decide (k = f)); auto.
Qed.

Lemma show_progress_stage (st : session_state) (stage : string) :
  conversation_stage st = stage ->
  show_progress st = dict_get progress_stages stage 0.
Proof. intros <-. reflexivity. Qed.

Lemma show_progress_next_question (st st0 : session_state) (q : question) :
  next_question st (q, st0) -> show_progress st <= show_progress st0.
Proof.
  inversion 1; subst; try lia.
  - match goal with
    | H : _ /\ _ \/ _ |- _ => destruct H as [[Hs _] | Hs]
    end; rewrite (show_progress_stage st _ Hs); vm_compute; discriminate.
  - match goal with
    | H : _ /\ _ \/ _ |- _ => destruct H as [[Hs _] | Hs]
    end; rewrite (show_progress_stage st _ Hs); vm_compute; discriminate.
Qed.

Section HandlerCases.

Context {py : interpreter}.

Lemma conversation_handler_cases (io : page) (st : session_state) :
  handler_outcome io st (conversation_handler io st).
Proof.
  unfold conversation_handler.
  destruct (String.eqb_spec (conversation_stage st) "completed") as [Hc | Hc];
    cbn [negb]; [apply outcome_completed, Hc |].
  pose proof (get_next_question_cases st) as Hn.
  destruct (get_next_question st) as [q st0].
  assert (Hfield : forall f, q_field q = Some f ->
            (q_type q =? "greeting")%string = false
            /\ (q_type q =? "schedule")%string = false).
  { intros f Hf. destruct (next_question_field _ _ _ _ Hn Hf) as (_ & [[Hin _] | [Hin _]]);
      simpl in Hin; decompose [or] Hin; subst; try contradiction; split; reflexivity. }
  destruct (q_field q) as [f |] eqn:Hf.
  - destruct (Hfield f eq_refl) as [-> ->].
    destruct (text_input io ("input_" ++ f)) as [| c input] eqn:Hin.
    + eapply outcome_waiting; [exact Hc | exact Hn |].
      right; left. exists f. rewrite Hin. auto.
    + destruct (validate_response (c :: input) (q_type q)) eqn:Hv.
      * rewrite <- Hin in Hv |- *. apply outcome_answered with (q := q); try assumption.
        rewrite Hin. discriminate.
      * eapply outcome_waiting; [exact Hc | exact Hn |].
        right; left. exists f. rewrite Hin. auto.
  - clear Hfield. inversion Hn; subst; cbn [q_type stages_greeting stages_schedule
                                              fallback_question String.eqb Ascii.eqb Bool.eqb].
    + apply outcome_greeting. assumption.
    + match goal with
      | H : first_unanswered _ _ = Return (Some _) |- _ =>
          destruct (first_unanswered_Some _ _ _ H) as (_ & f' & Hf' & _)
      end. congruence.
    + match goal with
      | H : first_unanswered _ _ = Return (Some _) |- _ =>
          destruct (first_unanswered_Some _ _ _ H) as (_ & f' & Hf' & _)
      end. congruence.
    + destruct (yes_clicked io) eqn:Hy.
      { apply (outcome_scheduled _ _ _ true); assumption. }
      destruct (no_clicked io) eqn:Hno.
      { apply (outcome_scheduled _ _ _ false); auto. }
      eapply outcome_waiting; [exact Hc | exact Hn | auto].
    + destruct (yes_clicked io) eqn:Hy.
      { apply (outcome_scheduled _ _ _ true); assumption. }
      destruct (no_clicked io) eqn:Hno.
      { apply (outcome_scheduled _ _ _ false); auto. }
      eapply outcome_waiting; [exact Hc | exact Hn | auto].
    + eapply outcome_waiting; [exact Hc | exact Hn | auto].
Qed.

End HandlerCases.

Section MainTheorems.

Context {py : interpreter}.

Lemma main_cases (io : page) (st : session_state) :
  (exists st1, conversation_handler io st = Rerun st1 /\ main io st = st1)
  \/ (exists st0,
        conversation_handler io st = Continue st0
        /\ main io st = if reset_clicked io then initial_state
                        else final_conversion io st0).
Proof.
  unfold main. destruct (conversation_handler io st) as [st0 | st1]; eauto.
Qed.

Lemma show_progress_final_conversion (io : page) (st : session_state) :
  show_progress st <= show_progress (final_conversion io st).
Proof.
  destruct (final_conversion_spec io st) as [[_ ->] | [_ ->]]; [| lia].
  pose proof (show_progress_values st) as H. simpl in H.
  change (show_progress _) with 100 at 2. lia.
Qed.

(** X15. From one run to the next the progress shown never goes down,
    unless the session is reset. *)
Theorem progress_never_decreases (io : page) (st : session_state) :
  reset_clicked io = false ->
  show_progress st <= show_progress (main io st).
Proof.
  intros Hreset.
  pose proof (conversation_handler_cases io st) as Hh.
  destruct (main_cases io st) as [(st1 & Hr & ->) | (st0 & Hr & ->)];
    rewrite Hr in Hh; [| rewrite Hreset].
  - inversion Hh; subst; clear Hh.
    + rewrite (show_progress_stage st "greeting") by assumption.
      vm_compute. discriminate.
    + match goal with H : next_question _ _ |- _ =>
        apply show_progress_next_question in H; exact H end.
    + match goal with H : next_question _ _ |- _ =>
        apply show_progress_next_question in H; exact H end.
  - etransitivity; [| apply show_progress_final_conversion].
    inversion Hh; subst; clear Hh; [lia |].
    match goal with H : next_question _ _ |- _ =>
      apply show_progress_next_question in H; exact H end.
Qed.

(** X16. A run at the greeting stage moves the session to the qualify stage
    and does nothing else, whatever is typed or clicked: the reset button
    included. *)
Theorem greeting_run_only_advances (io : page) (st : session_state) :
  conversation_stage st = "greeting" ->
  main io st = set_conversation_stage "qualify" st.
Proof.
  intros Hs. unfold main, conversation_handler.
  rewrite get_next_question_eq, Hs. reflexivity.
Qed.

Lemma reachable_run_pages (pages : list page) (st : session_state) :
  reachable st -> reachable (run_pages pages st).
Proof.
  revert st. induction pages as [| io pages IH]; intros st H; [exact H |].
  apply IH. constructor. exact H.
Qed.

Lemma next_question_lead_data (st st0 : session_state) (q : question) :
  next_question st (q, st0) -> lead_data st0 = lead_data st.
Proof. intros H. rewrite (next_question_frame _ _ _ H). reflexivity. Qed.

Lemma next_question_interactions (st st0 : session_state) (q : question) :
  next_question st (q, st0) -> interactions st0 = interactions st.
Proof. intros H. rewrite (next_question_frame _ _ _ H). reflexivity. Qed.

Lemma final_conversion_lead_data (io : page) (st : session_state) :
  lead_data (final_conversion io st) = lead_data st.
Proof. destruct (final_conversion_spec io st) as [[_ ->] | [_ ->]]; reflexivity. Qed.

(** The field of a question of the two lists is a required field. *)
Lemma question_field_required (q : question) (f : string) :
  In q stages_qualify \/ In q stages_contact -> q_field q = Some f ->
  In f required_fields.
Proof.
  simpl. intros H Hf. decompose [or] H; subst; try contradiction;
    injection Hf as <-; simpl; tauto.
Qed.

(** X17. An answer, once stored, is never changed or removed by a later
    run, unless the session is reset; only the "scheduled" flag can be
    written again. *)
Theorem answers_are_written_once (io : page) (st : session_state) (f : string)
    (v : value) :
  f <> "scheduled"%string ->
  lead_data st !! f = Some v ->
  reset_clicked io = false ->
  lead_data (main io st) !! f = Some v.
Proof.
  intros Hf Hv Hreset.
  pose proof (conversation_handler_cases io st) as Hh.
  destruct (main_cases io st) as [(st1 & Hr & ->) | (st0 & Hr & ->)];
    rewrite Hr in Hh; [| rewrite Hreset, final_conversion_lead_data];
    inversion Hh; subst; clear Hh; session_simpl; try exact Hv;
    match goal with
    | Hn : next_question _ _ |- _ => rewrite (next_question_lead_data _ _ _ Hn)
    end; try exact Hv.
  - rewrite lookup_insert_ne by congruence. exact Hv.
  - match goal with
    | Hn : next_question _ (?q, _), Hq : q_field ?q = Some _ |- _ =>
        destruct (next_question_field _ _ _ _ Hn Hq) as [Hm _]
    end.
    rewrite lookup_insert_ne by congruence. exact Hv.
Qed.

(** X18. A run only appends to the interaction log, at most one event
    stamped with the clock of the run, unless the session is reset. *)
Theorem interaction_log_is_append_only (io : page) (st : session_state) :
  reset_clicked io = false ->
  exists events,
    interactions (main io st) = interactions st ++ events
    /\ (length events <= 1)%nat
    /\ Forall (fun e => timestamp e = now io) events.
Proof.
  intros Hreset.
  pose proof (conversation_handler_cases io st) as Hh.
  destruct (main_cases io st) as [(st1 & Hr & ->) | (st0 & Hr & ->)];
    rewrite Hr in Hh.
  - inversion Hh; subst; clear Hh; session_simpl.
    + exists []. rewrite app_nil_r.
      split; [reflexivity | split; [simpl; lia | constructor]].
    + match goal with
      | Hn : next_question _ _ |- _ => rewrite (next_question_interactions _ _ _ Hn)
      end.
      eexists [_]. split; [reflexivity | split; [simpl; lia | repeat constructor]].
    + match goal with
      | Hn : next_question _ _ |- _ => rewrite (next_question_interactions _ _ _ Hn)
      end.
      eexists [_]. split; [reflexivity | split; [simpl; lia | repeat constructor]].
  - rewrite Hreset.
    assert (Hi : interactions st0 = interactions st).
    { inversion Hh; subst; clear Hh; [reflexivity |].
      eapply next_question_interactions; eassumption. }
    destruct (final_conversion_spec io st0) as [[_ ->] | [_ ->]]; session_simpl.
    + eexists [_]. rewrite Hi. split; [reflexivity |].
      split; [simpl; lia | repeat constructor].
    + exists []. rewrite app_nil_r. split; [exact Hi |].
      split; [simpl; lia | constructor].
Qed.

(** X19. A non-empty input that the validator accepts for the question
    asked is stored under the field of the question and logged, and the run
    ends there: what follows the handler (the conversion, the reset button)
    is not executed in that run. *)
Theorem valid_answer_is_stored (io : page) (st st0 : session_state) (q : question)
    (f : string) :
  conversation_stage st <> "completed"%string ->
  get_next_question st = (q, st0) ->
  q_field q = Some f ->
  text_input io ("input_" ++ f) <> [] ->
  validate_response (text_input io ("input_" ++ f)) (q_type q) = true ->
  main io st
  = track_analytics (now io) "question_answered"
      {[ "field" := VStr (u f); "value" := VStr (text_input io ("input_" ++ f)) ]}
      (set_lead_data f (VStr (text_input io ("input_" ++ f))) st0).
Proof.
  intros Hc Hg Hf Hne Hv.
  pose proof (conversation_handler_cases io st) as Hh.
  pose proof (get_next_question_cases st) as Hn. rewrite Hg in Hn.
  unfold main, conversation_handler in *.
  apply String.eqb_neq in Hc. rewrite Hc in *. cbn [negb] in *.
  rewrite Hg in *.
  destruct (next_question_field _ _ _ _ Hn Hf) as (_ & Hin).
  assert (Ht : (q_type q =? "greeting")%string = false
               /\ (q_type q =? "schedule")%string = false).
  { simpl in Hin. decompose [or and] Hin; subst; try contradiction; split; reflexivity. }
  destruct Ht as [-> ->]. rewrite Hf.
  destruct (text_input io ("input_" ++ f)) as [| c s]; [contradiction |].
  rewrite Hv. reflexivity.
Qed.

(** X20. An empty input, or one that the validator rejects for the question
    asked, is not stored: the run only leaves the stage that
    [get_next_question] set, and logs nothing, unless the session is
    reset. *)
Theorem rejected_input_is_not_stored (io : page) (st st0 : session_state)
    (q : question) (f : string) :
  conversation_stage st <> "completed"%string ->
  get_next_question st = (q, st0) ->
  q_field q = Some f ->
  text_input io ("input_" ++ f) = []
  \/ validate_response (text_input io ("input_" ++ f)) (q_type q) = false ->
  reset_clicked io = false ->
  main io st = st0
  /\ lead_data (main io st) = lead_data st
  /\ interactions (main io st) = interactions st.
Proof.
  intros Hc Hg Hf Hbad Hreset.
  pose proof (get_next_question_cases st) as Hn. rewrite Hg in Hn.
  destruct (next_question_field _ _ _ _ Hn Hf) as (Hm & Hin).
  assert (Hmain : main io st = st0).
  { unfold main, conversation_handler.
    apply String.eqb_neq in Hc. rewrite Hc. cbn [negb]. rewrite Hg.
    assert (Ht : (q_type q =? "greeting")%string = false
                 /\ (q_type q =? "schedule")%string = false).
    { simpl in Hin. decompose [or and] Hin; subst; try contradiction; split; reflexivity. }
    destruct Ht as [-> ->]. rewrite Hf, Hreset.
    assert (Hfc : final_conversion io st0 = st0).
    { destruct (final_conversion_spec io st0) as [[Hall _] | [_ ->]]; [| reflexivity].
      exfalso. rewrite Forall_forall in Hall.
      assert (Hreq : In f required_fields).
      { apply (question_field_required q); [tauto | exact Hf]. }
      apply list_elem_of_In, Hall in Hreq. unfold present in Hreq.
      rewrite (next_question_lead_data _ _ _ Hn), Hm in Hreq.
      destruct Hreq as [? Hreq]. discriminate. }
    destruct (text_input io ("input_" ++ f)) as [| c s]; [exact Hfc |].
    destruct Hbad as [Hbad | Hbad]; [discriminate | rewrite Hbad; exact Hfc]. }
  rewrite Hmain. split; [reflexivity |].
  split; [eapply next_question_lead_data | eapply next_question_interactions]; eassumption.
Qed.

(** ** Sessions the script reaches *)

Lemma invariant_initial : session_invariant initial_state.
Proof.
  split; session_simpl; try reflexivity.
  - left; reflexivity.
  - simpl. intros [E | [E | [E | []]]]; discriminate.
  - simpl. intros [E | [E | []]]; discriminate.
  - apply Forall_forall. intros q _ f v _ Hv. rewrite lookup_empty in Hv. discriminate.
  - constructor.
Qed.

Lemma invariant_next_question (st st0 : session_state) (q : question) :
  session_invariant st -> next_question st (q, st0) -> session_invariant st0.
Proof.
  intros Hinv Hn. inversion Hn; subst; try exact Hinv; destruct Hinv as [Hstage Hqual Hcont Hans Hscores Hconv Hmsg Hrate];
    split; session_simpl; try assumption.
  - right; right; left; reflexivity.
  - intros _.
    match goal with H : _ /\ _ \/ _ |- _ => destruct H as [[_ Hall] | Hc] end.
    + apply all_answered_qualify, first_unanswered_None, Hall.
    + apply Hqual. rewrite Hc. left; reflexivity.
  - simpl. intros [E | [E | []]]; discriminate.
  - right; right; right; left; reflexivity.
  - intros _.
    match goal with H : _ /\ _ \/ _ |- _ => destruct H as [[_ Hall] | Hc] end.
    + apply all_answered_qualify, first_unanswered_None, Hall.
    + apply Hqual. rewrite Hc. left; reflexivity.
  - intros _. apply all_answered_contact, first_unanswered_None. assumption.
Qed.

(** Writing a value that fits the questions of its field, and logging an
    event that is no conversion. *)
Lemma invariant_set_lead_data (st : session_state) (k : string) (v : value)
    (t : Z) (event : string) (meta : gmap string value) :
  session_invariant st ->
  (forall q, In q (stages_qualify ++ stages_contact) -> q_field q = Some k ->
     exists s, v = VStr s /\ s <> [] /\ validate_response s (q_type q) = true) ->
  event <> "conversion"%string ->
  session_invariant (track_analytics t event meta (set_lead_data k v st)).
Proof.
  intros [Hstage Hqual Hcont Hans Hscores Hconv Hmsg Hrate] Hfit Hev. split; session_simpl; try assumption.
  - intros H. eapply Forall_impl; [apply Hqual, H |].
    intros f. apply present_insert.
  - intros H. eapply Forall_impl; [apply Hcont, H |].
    intros f. apply present_insert.
  - rewrite Forall_forall in Hans |- *. intros q Hq f v' Hf Hv'.
    destruct (decide (k = f)) as [-> | Hne].
    + rewrite lookup_insert_eq in Hv'. injection Hv' as <-.
      apply Hfit; [apply list_elem_of_In, Hq | exact Hf].
    + rewrite lookup_insert_ne in Hv' by exact Hne.
      exact (Hans q Hq f v' Hf Hv').
  - rewrite List.filter_app, length_app. unfold is_conversion at 2.
    cbn [List.filter event_type].
    apply String.eqb_neq in Hev. rewrite Hev. simpl. lia.
Qed.

Lemma invariant_final_conversion (io : page) (st : session_state) :
  session_invariant st -> session_invariant (final_conversion io st).
Proof.
  intros Hinv.
  destruct (final_conversion_spec io st) as [[Hall ->] | [_ ->]]; [| exact Hinv].
  apply required_fields_split in Hall as [Hq Hc].
  destruct Hinv as [Hstage Hqual Hcont Hans Hscores Hconv Hmsg Hrate]. split; session_simpl; try assumption.
  - do 4 right; left; reflexivity.
  - intros _. exact Hq.
  - intros _. exact Hc.
  - apply Forall_app. split; [assumption |]. constructor; [| constructor].
    exists (qualify_lead (lead_data st)). split; [apply qualify_lead_range |].
    unfold score_record. rewrite lookup_insert_ne by discriminate.
    apply lookup_insert_eq.
  - rewrite List.filter_app, !length_app. simpl. lia.
Qed.

Lemma invariant_handler (io : page) (st st' : session_state) :
  session_invariant st ->
  conversation_handler io st = Continue st' \/ conversation_handler io st = Rerun st' ->
  session_invariant st'.
Proof.
  intros Hinv Hrun.
  pose proof (conversation_handler_cases io st) as Hh.
  inversion Hh; subst; clear Hh;
    match goal with
    | H : _ = conversation_handler _ _ |- _ =>
        rewrite <- H in Hrun; destruct Hrun as [[= <-] | [= <-]]
    end.
  - exact Hinv.
  - destruct Hinv as [Hstage Hqual Hcont Hans Hscores Hconv Hmsg Hrate]. split; session_simpl; try assumption.
    + right; left; reflexivity.
    + simpl. intros [E | [E | [E | []]]]; discriminate.
    + simpl. intros [E | [E | []]]; discriminate.
  - apply invariant_set_lead_data.
    + eapply invariant_next_question; eassumption.
    + intros q Hq Hf. exfalso. simpl in Hq.
      decompose [or] Hq; subst; try contradiction; discriminate Hf.
    + destruct accepted; discriminate.
  - apply invariant_set_lead_data.
    + eapply invariant_next_question; eassumption.
    + intros q' Hq' Hf'.
      match goal with
      | Hn : next_question _ (?q, _), Hf : q_field ?q = Some _ |- _ =>
          destruct (next_question_field _ _ _ _ Hn Hf) as (_ & Hin)
      end.
      assert (q' = q) as ->.
      { simpl in Hq', Hin.
        decompose [or and] Hq'; decompose [or and] Hin; subst;
          try contradiction; try reflexivity; simpl in *; congruence. }
      eexists. split; [reflexivity |]. split; assumption.
    + discriminate.
  - eapply invariant_next_question; eassumption.
Qed.

Lemma invariant_main (io : page) (st : session_state) :
  session_invariant st -> session_invariant (main io st).
Proof.
  intros Hinv.
  destruct (main_cases io st) as [(st1 & Hr & ->) | (st0 & Hr & ->)].
  - eapply invariant_handler; eauto.
  - destruct (reset_clicked io); [apply invariant_initial |].
    apply invariant_final_conversion. eapply invariant_handler; eauto.
Qed.

Lemma reachable_invariant (st : session_state) :
  reachable st -> session_invariant st.
Proof.
  induction 1; [apply invariant_initial | apply invariant_main; assumption].
Qed.

(** X21. In every session the script reaches the stage is one of greeting,
    qualify, contact, schedule and completed: the fallback question is
    never shown. *)
Theorem reachable_stage_is_known (st : session_state) :
  reachable st ->
  In (conversation_stage st)
    ["greeting"; "qualify"; "contact"; "schedule"; "completed"]%string
  /\ (conversation_stage st <> "completed"%string ->
      fst (get_next_question st) <> fallback_question).
Proof.
  intros H. apply reachable_invariant in H. destruct H as [Hs _ _ _ _ _ _ _].
  split; [exact Hs |].
  intros Hc Hfb.
  pose proof (get_next_question_cases st) as Hn.
  destruct (get_next_question st) as [q st0]. cbn [fst] in Hfb. subst q.
  inversion Hn; subst;
    try match goal with
        | H : first_unanswered _ _ = Return (Some _) |- _ =>
            destruct (first_unanswered_Some _ _ _ H) as (_ & f & Hf & _); discriminate Hf
        end.
  simpl in Hs. decompose [or] Hs; try contradiction; congruence.
Qed.

(** X22. In every session the script reaches, the stages contact, schedule
    and completed go with the three qualify fields, and the stages schedule
    and completed with the three contact fields as well. *)
Theorem reachable_stage_has_its_fields (st : session_state) :
  reachable st ->
  (In (conversation_stage st) ["contact"; "schedule"; "completed"]%string ->
   Forall (present (lead_data st)) qualify_fields)
  /\ (In (conversation_stage st) ["schedule"; "completed"]%string ->
      Forall (present (lead_data st)) contact_fields).
Proof.
  intros H. apply reachable_invariant in H. destruct H as [_ Hq Hc _ _ _ _ _].
  split; assumption.
Qed.

(** X23. In every session the script reaches, each answer in the lead
    record is a non-empty text that the validator accepts for the type of
    its question. *)
Theorem stored_answers_are_validated (st : session_state) (q : question)
    (f : string) (v : value) :
  reachable st ->
  In q (stages_qualify ++ stages_contact) ->
  q_field q = Some f ->
  lead_data st !! f = Some v ->
  exists s, v = VStr s /\ s <> [] /\ validate_response s (q_type q) = true.
Proof.
  intros H Hq Hf Hv. apply reachable_invariant in H.
  destruct H as [_ _ _ Ha _ _ _ _].
  rewrite Forall_forall in Ha. exact (Ha q (proj2 (list_elem_of_In _ _) Hq) f v Hf Hv).
Qed.

(** X24. The script never writes to the chat history nor to the conversion
    rate: in every session it reaches the history is empty and the rate
    is 0. *)
Theorem chat_history_and_rate_never_written (st : session_state) :
  reachable st -> messages st = [] /\ conversion_rate st = 0.
Proof.
  intros H. apply reachable_invariant in H. destruct H as [_ _ _ _ _ _ Hm Hr].
  split; assumption.
Qed.

(** X25. In every session the script reaches, the log holds one
    conversion event per record of the score log. *)
Theorem one_conversion_event_per_score (st : session_state) :
  reachable st ->
  length (List.filter is_conversion (interactions st)) = total_leads st.
Proof.
  intros H. apply reachable_invariant in H. destruct H as [_ _ _ _ _ Hc _ _].
  exact Hc.
Qed.

Lemma has_category_value (r : gmap string value) (c c' : string) :
  r !! "category" = Some (VStr (u c)) ->
  has_category c' r = bool_decide (u c = u c').
Proof. intros H. unfold has_category. rewrite H. reflexivity. Qed.

Lemma categorised_counts (scores : list (gmap string value)) :
  Forall categorised scores ->
  (length (List.filter (has_category "Hot") scores)
   + length (List.filter (has_category "Warm") scores)
   + length (List.filter (has_category "Cold") scores) = length scores)%nat.
Proof.
  induction 1 as [| r scores (c & Hc & Hr) _ IH]; [reflexivity |].
  cbn [List.filter]. rewrite !(has_category_value _ _ _ Hr).
  simpl in Hc. destruct Hc as [<- | [<- | [<- | []]]];
    repeat match goal with
           | |- context [bool_decide (u ?a = u ?b)] =>
               let v := eval vm_compute in (bool_decide (u a = u b)) in
               change (bool_decide (u a = u b)) with v
           end;
    cbn [length]; lia.
Qed.

(** X26. In every session the script reaches, the bars Hot, Warm and Cold of
    the lead distribution add up to the metric Total Leads, and the metric
    Hot Leads is the Hot bar. *)
Theorem lead_distribution_adds_up (st : session_state) :
  reachable st ->
  (value_counts st "Hot" + value_counts st "Warm" + value_counts st "Cold"
   = total_leads st)%nat
  /\ hot_leads st = value_counts st "Hot".
Proof.
  intros H. apply reachable_invariant in H. destruct H as [_ _ _ _ Hs _ _ _].
  split; [| reflexivity]. apply categorised_counts, Hs.
Qed.

(** X27. Every run of the script in a completed session scores the lead
    again: it appends one more record of the same lead to the score log
    and one more conversion event, so Total Leads goes up by one on each
    run, until the session is reset. *)
Theorem completed_session_is_scored_on_every_run (io : page) (st : session_state) :
  reachable st ->
  conversation_stage st = "completed" ->
  reset_clicked io = false ->
  main io st
  = track_analytics (now io) "conversion" ∅
      (append_lead_score
         (score_record io (qualify_lead (lead_data st)) (lead_data st)) st)
  /\ total_leads (main io st) = S (total_leads st).
Proof.
  intros H Hc Hreset. apply reachable_invariant in H.
  destruct H as [_ Hq Hct _ _ _ _ _].
  assert (Hall : Forall (present (lead_data st)) required_fields).
  { apply required_fields_split. rewrite Hc in Hq, Hct. split; [apply Hq | apply Hct];
      simpl; tauto. }
  assert (Hmain : main io st
                  = track_analytics (now io) "conversion" ∅
                      (append_lead_score
                         (score_record io (qualify_lead (lead_data st)) (lead_data st)) st)).
  { unfold main, conversation_handler. rewrite Hc. cbn [String.eqb Ascii.eqb Bool.eqb negb].
    rewrite Hreset.
    destruct (final_conversion_spec io st) as [[_ ->] | [Hno _]]; [| contradiction].
    rewrite <- Hc at 1. rewrite set_conversation_stage_same. reflexivity. }
  split; [exact Hmain |]. rewrite Hmain. unfold total_leads. session_simpl.
  rewrite length_app. simpl. lia.
Qed.

End MainTheorems.

(** ** A whole conversation *)

Section Conversation.

Context {py : interpreter}.

(** The run on the page that answers the question asked. *)
Lemma main_answer_page (st st0 : session_state) (q : question) (f : string) (x : pystr) :
  (conversation_stage st =? "completed")%string = false ->
  get_next_question st = (q, st0) ->
  (q_type q =? "greeting")%string = false ->
  (q_type q =? "schedule")%string = false ->
  q_field q = Some f ->
  x <> [] ->
  validate_response x (q_type q) = true ->
  main (answer_page f x) st
  = track_analytics 0 "question_answered" {[ "field" := VStr (u f); "value" := VStr x ]}
      (set_lead_data f (VStr x) st0).
Proof.
  intros Hc Hg Hg1 Hg2 Hf Hx Hv. unfold main, conversation_handler.
  rewrite Hc. cbn [negb]. rewrite Hg, Hg1, Hg2, Hf.
  cbn [text_input answer_page now]. rewrite String.eqb_refl.
  destruct x as [| c x]; [contradiction |]. rewrite Hv. reflexivity.
Qed.

Lemma validated_nonempty (x : pystr) (field_type : string) :
  In field_type ["email"; "phone"; "number"; "scale"]%string ->
  validate_response x field_type = true -> x <> [].
Proof.
  simpl. intros Ht Hv ->. decompose [or] Ht; subst; try contradiction;
    vm_compute in Hv; discriminate.
Qed.

Ltac run_loops :=
  repeat match goal with
         | |- context [first_unanswered ?qs ?d] =>
             let v := eval vm_compute in (first_unanswered qs d) in
             replace (first_unanswered qs d) with v by (vm_compute; reflexivity)
         end.

Ltac answer_step :=
  match goal with
  | |- context [main (answer_page ?f ?x) ?s] =>
      lazymatch s with
      | context [main] => fail
      | _ =>
          erewrite (main_answer_page s _ _ f x);
          [ | reflexivity
            | first [ rewrite (get_next_question_qualify s) by reflexivity
                    | rewrite (get_next_question_contact s) by reflexivity ];
              run_loops; reflexivity
            | reflexivity | reflexivity | reflexivity | assumption
            | first [assumption | vm_compute; reflexivity] ]
      end
  end.

(** X28. A conversation in which the six questions are answered in turn
    with texts that the validator accepts ends completed, after the run
    that follows the last answer: the lead record holds the six answers,
    the score log holds one record, with the category that [qualify_lead]
    gives the answers, and the log holds six answers and one conversion. *)
Theorem valid_conversation_completes (budget timeline interest name email phone : pystr) :
  validate_response budget "number" = true ->
  validate_response timeline "number" = true ->
  validate_response interest "scale" = true ->
  name <> [] ->
  validate_response email "email" = true ->
  validate_response phone "phone" = true ->
  let data := answers budget timeline interest name email phone in
  let st := run_pages (conversation budget timeline interest name email phone)
              initial_state in
  conversation_stage st = "completed"
  /\ lead_data st = data
  /\ lead_scores st = [score_record idle_page (qualify_lead data) data]
  /\ map event_type (interactions st)
     = ["question_answered"; "question_answered"; "question_answered";
        "question_answered"; "question_answered"; "question_answered";
        "conversion"]%string.
Proof.
  intros Hb Ht Hi Hn He Hp data st. subst st.
  unfold run_pages, conversation. cbn [fold_left].
  assert (Hb' := validated_nonempty budget "number" ltac:(simpl; tauto) Hb).
  assert (Ht' := validated_nonempty timeline "number" ltac:(simpl; tauto) Ht).
  assert (Hi' := validated_nonempty interest "scale" ltac:(simpl; tauto) Hi).
  assert (He' := validated_nonempty email "email" ltac:(simpl; tauto) He).
  assert (Hp' := validated_nonempty phone "phone" ltac:(simpl; tauto) Hp).
  replace (main idle_page initial_state)
    with (set_conversation_stage "qualify" initial_state)
    by (unfold main, conversation_handler; rewrite get_next_question_eq; reflexivity).
  do 6 answer_step.
  unfold main, conversation_handler.
  match goal with
  | |- context [get_next_question ?s] =>
      rewrite (get_next_question_contact s) by reflexivity
  end.
  run_loops.
  cbn [conversation_stage track_analytics set_lead_data set_conversation_stage
       String.eqb Ascii.eqb Bool.eqb negb q_type stages_schedule
       yes_clicked no_clicked reset_clicked idle_page].
  unfold final_conversion.
  match goal with
  | |- context [forallb ?f ?l] =>
      replace (forallb f l) with true by (vm_compute; reflexivity)
  end.
  repeat split.
Qed.

End Conversation.

(** * Concrete leads and sessions *)

(** ** The sequencer and the script at work *)

Example qualify_to_contact :
  let r := get_next_question (session_at "qualify" hot_lead) in
  q_field (fst r) = Some "name" /\ conversation_stage (snd r) = "contact".
Proof. vm_compute. split; reflexivity. Qed.

Example qualify_to_schedule :
  let r := get_next_question (session_at "qualify" (hot_lead ∪ contact_data)) in
  q_type (fst r) = "schedule" /\ conversation_stage (snd r) = "schedule".
Proof. vm_compute. split; reflexivity. Qed.

Example qualify_stays :
  let r := get_next_question (session_at "qualify" warm_lead) in
  q_field (fst r) = Some "interest_level" /\ conversation_stage (snd r) = "qualify".
Proof. vm_compute. split; reflexivity. Qed.

Example contact_stays :
  let r := get_next_question (session_at "contact" hot_lead) in
  q_field (fst r) = Some "name" /\ conversation_stage (snd r) = "contact".
Proof. vm_compute. split; reflexivity. Qed.

Example run_completes :
  let st := main (py := cpython_3_11) idle_page
              (session_at "contact" (hot_lead ∪ contact_data)) in
  conversation_stage st = "completed"
  /\ map (fun r : gmap string value => r !! "category") (lead_scores st)
     = [Some (VStr (u "Hot"))].
Proof. vm_compute. split; reflexivity. Qed.

Example run_does_not_complete :
  let st := main (py := cpython_3_11) idle_page (session_at "contact" hot_lead) in
  conversation_stage st = "contact" /\ lead_scores st = [].
Proof. vm_compute. split; reflexivity. Qed.

(** [float] accepts the texts [inf] and [nan]: they raise nothing, so such a
    budget is scored. *)
Example infinite_budget_is_scored :
  qualify_lead (py := cpython_3_11) (<["budget" := VStr (u "inf")]> hot_lead) = "Hot"
  /\ qualify_lead (py := cpython_3_11) (<["budget" := VStr (u "nan")]> hot_lead) = "Warm".
Proof. split; vm_compute; reflexivity. Qed.

(** A budget written with a fraction is rounded to binary64 before the
    test: twenty nines reach the threshold. *)
Example budget_rounds_up_to_threshold :
  qualify_lead (py := cpython_3_11)
    (<["budget" := VStr (u "9999.9999999999999999")]> hot_lead) = "Hot"
  /\ qualify_lead (py := cpython_3_11)
       (<["budget" := VStr (u "9999.999999999999")]> hot_lead) = "Warm".
Proof. split; vm_compute; reflexivity. Qed.

(** The email validator rejects "not-an-email" and accepts "a@b.co", on
    every interpreter. *)
Example email_examples (py : interpreter) :
  validate_response (u "not-an-email") "email" = false
  /\ validate_response (u "a@b.co") "email" = true.
Proof. split; vm_compute; reflexivity. Qed.

(** The sample conversation: six answers, then the conversion. *)
Example sample_conversation_completes :
  conversation_stage completed_session = "completed"
  /\ total_leads completed_session = 1%nat
  /\ hot_leads completed_session = 1%nat
  /\ map event_type (interactions completed_session)
     = ["question_answered"; "question_answered"; "question_answered";
        "question_answered"; "question_answered"; "question_answered";
        "conversion"]%string.
Proof. vm_compute. repeat split. Qed.

(** ** Instances of the theorems *)

Lemma hot_lead_is_hot : qualify_lead (py := cpython_3_11) hot_lead = "Hot".
Proof.
  refine (proj2 (proj2 (qualify_lead_weighted_score (py := cpython_3_11)
                          hot_lead (float_of_Z 20000) 10 9 _ _ _)) _ _ _).
  - vm_compute. reflexivity.
  - vm_compute. reflexivity.
  - vm_compute. reflexivity.
  - vm_compute. reflexivity.
  - lia.
  - lia.
Defined.

Lemma unparsable_lead_is_cold : qualify_lead (py := cpython_3_11) unparsable_lead = "Cold".
Proof.
  apply (qualify_lead_parse_error_cold (py := cpython_3_11) unparsable_lead (u "abc")).
  left. split.
  - vm_compute. reflexivity.
  - exists ValueError. vm_compute. reflexivity.
Defined.

Lemma warm_lead_is_warm : qualify_lead (py := cpython_3_11) warm_lead = "Warm".
Proof.
  refine (proj1 (qualify_lead_two_thresholds_warm (py := cpython_3_11)
                   warm_lead (float_of_Z 20000) 10 0 _ _ _ _)).
  - vm_compute. reflexivity.
  - vm_compute. reflexivity.
  - vm_compute. reflexivity.
  - vm_compute. reflexivity.
Defined.

Lemma first_question_is_unanswered :
  lead_data (session_at "qualify" ∅) !! "budget" = None.
Proof.
  apply (next_question_field_unanswered (session_at "qualify" ∅) "budget").
  vm_compute. reflexivity.
Defined.

Lemma completed_stage_falls_back :
  get_next_question (session_at "completed" hot_lead)
  = ({| q_question := "How can I help you today?"; q_field := None;
        q_type := "fallback" |}, session_at "completed" hot_lead).
Proof.
  apply (unknown_stage_falls_back (session_at "completed" hot_lead)); discriminate.
Defined.

Lemma unicode_lead_is_scored :
  exists (budget : spec_float) (interest_level : Z),
    py_float (py := cpython_3_11) (VStr [1634; 1632; 1632; 1632; 1632]%N) = Return budget
    /\ py_int (py := cpython_3_11) (VStr (u "10" ++ [Chr.newline]))
       = Return (number_value (py := cpython_3_11) (u "10" ++ [Chr.newline]))
    /\ py_int (py := cpython_3_11) (VStr (u "9")) = Return interest_level
    /\ (exists s, qualify_lead_try (py := cpython_3_11) unicode_lead
                  = Return (s, qualify_lead (py := cpython_3_11) unicode_lead))
    /\ py_ge (NFloat budget) (NInt 10000)
       = (10000 <=? number_value (py := cpython_3_11) [1634; 1632; 1632; 1632; 1632]%N)
    /\ qualify_lead (py := cpython_3_11) unicode_lead
       = spec_category
           (spec_weighted_score
              (10000 <=? number_value (py := cpython_3_11) [1634; 1632; 1632; 1632; 1632]%N)
              (number_value (py := cpython_3_11) (u "10" ++ [Chr.newline]) <=? 30)
              (7 <=? interest_level)).
Proof.
  apply (validated_lead_scored_by_thresholds (py := cpython_3_11) unicode_lead);
    vm_compute; reflexivity.
Defined.

(** C10 fails as stated. On CPython 3.11 a timeline of 4301 digits passes
    the number pattern and makes [int] raise, so the lead is Cold; with the
    limit turned off the same lead is Warm. A budget of 1000000001 digits
    passes the pattern too and makes [float] raise: Cold again, for a lead
    that meets the three thresholds. *)
Lemma validated_text_reaches_except :
  (validate_response (py := cpython_3_11) (u "20000") "number" = true
   /\ validate_response (py := cpython_3_11) long_timeline "number" = true
   /\ validate_response (py := cpython_3_11) (u "9") "scale" = true
   /\ py_int (py := cpython_3_11) (VStr long_timeline) = Raise ValueError
   /\ qualify_lead_try (py := cpython_3_11) long_timeline_lead = Raise ValueError
   /\ qualify_lead (py := cpython_3_11) long_timeline_lead = "Cold"
   /\ qualify_lead (py := cpython_no_int_limit) long_timeline_lead = "Warm")
  /\ (validate_response (py := cpython_3_11) long_budget "number" = true
      /\ py_float (py := cpython_3_11) (VStr long_budget) = Raise ValueError
      /\ qualify_lead (py := cpython_3_11) long_budget_lead = "Cold").
Proof.
  split.
  - repeat apply conj; vm_compute; reflexivity.
  - unfold long_budget_lead, long_budget.
    apply (budget_beyond_strtod_digits (py := cpython_3_11)).
    + vm_compute. reflexivity.
    + rewrite Z2Nat.id; [reflexivity | discriminate].
Qed.

Lemma hot_lead_fields : Forall (present hot_lead) qualify_fields.
Proof.
  apply (hot_lead_has_the_three_fields (py := cpython_3_11) hot_lead).
  vm_compute. reflexivity.
Defined.

Lemma interest_asked_after_budget_and_timeline :
  exists before after,
    all_answered before (lead_data asking_interest)
    /\ (stages_qualify
        = before ++ {| q_question := "On a scale of 1-10, how urgent is this need?";
                       q_field := Some "interest_level"; q_type := "scale" |} :: after
        /\ conversation_stage asking_interest = "qualify"
        \/ stages_contact
           = before ++ {| q_question := "On a scale of 1-10, how urgent is this need?";
                          q_field := Some "interest_level"; q_type := "scale" |} :: after
           /\ conversation_stage asking_interest = "contact"
           /\ (conversation_stage asking_interest = "qualify" ->
               all_answered stages_qualify (lead_data asking_interest))).
Proof.
  apply (next_question_follows_list_order asking_interest asking_interest).
  - vm_compute. reflexivity.
  - eexists. reflexivity.
Defined.

Lemma first_run_progress :
  show_progress initial_state <= show_progress (main (py := cpython_3_11) idle_page initial_state).
Proof. apply (progress_never_decreases (py := cpython_3_11) idle_page initial_state). reflexivity. Defined.

Lemma first_run_moves_to_qualify :
  main (py := cpython_3_11) idle_page initial_state
  = set_conversation_stage "qualify" initial_state.
Proof. apply (greeting_run_only_advances (py := cpython_3_11)). reflexivity. Defined.

Lemma budget_kept_when_interest_is_answered :
  lead_data (main (py := cpython_3_11) (answer_page "interest_level" (u "9")) asking_interest)
    !! "budget" = Some (VStr (u "20000")).
Proof.
  apply (answers_are_written_once (py := cpython_3_11)).
  - discriminate.
  - vm_compute. reflexivity.
  - reflexivity.
Defined.

Lemma answer_run_appends_to_log :
  exists events,
    interactions (main (py := cpython_3_11) (answer_page "interest_level" (u "9"))
                    asking_interest)
    = interactions asking_interest ++ events
    /\ (length events <= 1)%nat
    /\ Forall (fun e => timestamp e = now (answer_page "interest_level" (u "9"))) events.
Proof.
  apply (interaction_log_is_append_only (py := cpython_3_11)). reflexivity.
Defined.

Lemma interest_9_is_stored :
  main (py := cpython_3_11) (answer_page "interest_level" (u "9")) asking_interest
  = track_analytics 0 "question_answered"
      {[ "field" := VStr (u "interest_level"); "value" := VStr (u "9") ]}
      (set_lead_data "interest_level" (VStr (u "9")) asking_interest).
Proof.
  apply (valid_answer_is_stored (py := cpython_3_11)
           (answer_page "interest_level" (u "9")) asking_interest asking_interest
           {| q_question := "On a scale of 1-10, how urgent is this need?";
              q_field := Some "interest_level"; q_type := "scale" |} "interest_level").
  - discriminate.
  - vm_compute. reflexivity.
  - reflexivity.
  - discriminate.
  - vm_compute. reflexivity.
Defined.

Lemma interest_11_is_not_stored :
  main (py := cpython_3_11) (answer_page "interest_level" (u "11")) asking_interest
  = asking_interest
  /\ lead_data (main (py := cpython_3_11) (answer_page "interest_level" (u "11"))
                  asking_interest)
     = lead_data asking_interest
  /\ interactions (main (py := cpython_3_11) (answer_page "interest_level" (u "11"))
                     asking_interest)
     = interactions asking_interest.
Proof.
  apply (rejected_input_is_not_stored (py := cpython_3_11)
           (answer_page "interest_level" (u "11")) asking_interest asking_interest
           {| q_question := "On a scale of 1-10, how urgent is this need?";
              q_field := Some "interest_level"; q_type := "scale" |} "interest_level").
  - discriminate.
  - vm_compute. reflexivity.
  - reflexivity.
  - right. vm_compute. reflexivity.
  - reflexivity.
Defined.

Lemma completed_session_stage :
  In (conversation_stage completed_session)
    ["greeting"; "qualify"; "contact"; "schedule"; "completed"]%string
  /\ (conversation_stage completed_session <> "completed"%string ->
      fst (get_next_question completed_session) <> fallback_question).
Proof.
  apply (reachable_stage_is_known (py := cpython_3_11)).
  apply reachable_run_pages, reachable_initial.
Defined.

Lemma completed_session_fields :
  (In (conversation_stage completed_session) ["contact"; "schedule"; "completed"]%string ->
   Forall (present (lead_data completed_session)) qualify_fields)
  /\ (In (conversation_stage completed_session) ["schedule"; "completed"]%string ->
      Forall (present (lead_data completed_session)) contact_fields).
Proof.
  apply (reachable_stage_has_its_fields (py := cpython_3_11)).
  apply reachable_run_pages, reachable_initial.
Defined.

Lemma completed_session_budget_validated :
  exists s, VStr (u "20000") = VStr s /\ s <> []
            /\ validate_response (py := cpython_3_11) s "number" = true.
Proof.
  apply (stored_answers_are_validated (py := cpython_3_11) completed_session
           {| q_question := "What's your estimated budget for this project? (USD)";
              q_field := Some "budget"; q_type := "number" |} "budget" (VStr (u "20000"))).
  - apply reachable_run_pages, reachable_initial.
  - left. reflexivity.
  - reflexivity.
  - vm_compute. reflexivity.
Defined.

Lemma completed_session_history :
  messages completed_session = [] /\ conversion_rate completed_session = 0.
Proof.
  apply (chat_history_and_rate_never_written (py := cpython_3_11)).
  apply reachable_run_pages, reachable_initial.
Defined.

Lemma completed_session_conversions :
  length (List.filter is_conversion (interactions completed_session))
  = total_leads completed_session.
Proof.
  apply (one_conversion_event_per_score (py := cpython_3_11)).
  apply reachable_run_pages, reachable_initial.
Defined.

Lemma completed_session_distribution :
  (value_counts completed_session "Hot" + value_counts completed_session "Warm"
   + value_counts completed_session "Cold" = total_leads completed_session)%nat
  /\ hot_leads completed_session = value_counts completed_session "Hot".
Proof.
  apply (lead_distribution_adds_up (py := cpython_3_11)).
  apply reachable_run_pages, reachable_initial.
Defined.

Lemma completed_session_scored_again :
  main (py := cpython_3_11) idle_page completed_session
  = track_analytics (now idle_page) "conversion" ∅
      (append_lead_score
         (score_record idle_page
            (qualify_lead (py := cpython_3_11) (lead_data completed_session))
            (lead_data completed_session))
         completed_session)
  /\ total_leads (main (py := cpython_3_11) idle_page completed_session)
     = S (total_leads completed_session).
Proof.
  apply (completed_session_is_scored_on_every_run (py := cpython_3_11)).
  - apply reachable_run_pages, reachable_initial.
  - vm_compute. reflexivity.
  - reflexivity.
Defined.

Lemma name_is_not_validated :
  validate_response (py := cpython_3_11) (u "?") "text" = true.
Proof.
  apply (type_without_rule_accepts_all (py := cpython_3_11)).
  simpl. intros [E | [E | [E | [E | []]]]]; discriminate.
Defined.

Lemma sample_conversation_is_completed :
  conversation_stage completed_session = "completed"
  /\ lead_data completed_session
     = answers (u "20000") (u "10") (u "9") (u "Ada") (u "a@b.co") (u "+14155551234")
  /\ lead_scores completed_session
     = [score_record idle_page
          (qualify_lead (py := cpython_3_11)
             (answers (u "20000") (u "10") (u "9") (u "Ada") (u "a@b.co")
                (u "+14155551234")))
          (answers (u "20000") (u "10") (u "9") (u "Ada") (u "a@b.co")
             (u "+14155551234"))]
  /\ map event_type (interactions completed_session)
     = ["question_answered"; "question_answered"; "question_answered";
        "question_answered"; "question_answered"; "question_answered";
        "conversion"]%string.
Proof.
  apply (valid_conversation_completes (py := cpython_3_11)
           (u "20000") (u "10") (u "9") (u "Ada") (u "a@b.co") (u "+14155551234"));
    try (vm_compute; reflexivity).
  discriminate.
Defined.
